(** * RushConfig: loading rush.json and building the project graph

    A shallow embedding of the class [RushConfig] of rush-lib: the two
    loaders [loadFromConfigFile] and [loadFromDefaultLocation], the temp-name
    generator [_generateTempNamesForProjects] and the constructor that builds
    the project list, the by-name index and the downstream dependency lists.

    Conventions of the embedding
    - [throw new Error(msg)] is a [Throw e]; [e : RushError] records which
      throw site raised and [message e] is the text of the [Error].
    - The collaborators that are imported but not part of the class (semver,
      fs, path, os, process, z-schema, JsonFile, Utilities, RushConfigProject
      and rushVersion) are the fields of the class [Host].
    - The loaders talk to the outside world; their calls to [fs.existsSync],
      [console.log], [JsonFile.loadJsonFile], [new Validator] and
      [validator.validate] are recorded, in order, in a trace of [Event]s.
      The constructor only reads the host, and is a function of it.
    - Objects that are shared or used as keys are identified by a number: the
      entries of the ["projects"] array by their position in the manifest,
      the project objects by their index in [_projects]. *)

From stdpp Require Import gmap strings list pretty.
From Stdlib Require Import ZArith Ascii.

Open Scope string_scope.

(** ** JavaScript primitives *)

Module Js.

(** The double quote character, for the messages that contain one. *)
Definition dquote : string := String (Ascii.ascii_of_nat 34) EmptyString.

(** Truthiness of a string value that may be [undefined]: [undefined] and
    the empty string are falsy. *)
Definition truthy (v : option string) : bool :=
  match v with
  | None => false
  | Some s => negb (bool_decide (s = EmptyString))
  end.

(** [if (v) { ... v ... }]: the string in [v] when [v] is truthy. *)
Definition if_truthy (v : option string) : option string :=
  match v with
  | None => None
  | Some s => if truthy (Some s) then Some s else None
  end.

(** [a.localeCompare(b)]: negative, zero or positive.  Collation depends on
    the locale of the host; the model orders by character code.  Every
    collation compares a string as equal to itself, which is all that the
    call site in [_generateTempNamesForProjects] relies on. *)
Definition localeCompare (a b : string) : Z :=
  match String.compare a b with
  | Lt => (-1)%Z
  | Eq => 0%Z
  | Gt => 1%Z
  end.

Section Sort.
Context {A : Type} (compareFn : A → A → Z).

(** [Array.prototype.sort(compareFn)] is stable (ECMAScript 2019): elements
    that compare as equal keep their relative order.  The model is the stable
    insertion sort: [x] goes in front of the first element it does not
    compare greater than. *)
Fixpoint insert_sorted (x : A) (l : list A) : list A :=
  match l with
  | [] => [x]
  | y :: l' =>
      if (compareFn x y <=? 0)%Z then x :: y :: l' else y :: insert_sorted x l'
  end.

Fixpoint sort (l : list A) : list A :=
  match l with
  | [] => []
  | x :: l' => insert_sorted x (sort l')
  end.

End Sort.

End Js.

(** ** Data model *)

(** One entry of the ["projects"] array of rush.json.  The interface is
    declared in [./RushConfigProject]; the fields are those the manifest
    provides: [packageName], [projectFolder], [reviewCategory?] and
    [cyclicDependencyProjects?]. *)
Record IRushConfigProjectJson := {
  packageName : string;
  projectFolder : string;
  reviewCategory : option string;
  cyclicDependencyProjects : option (list string)
}.

(** The JSON data structure of rush.json, [IRushConfigJson].  Optional
    fields are [option]s, [None] being [undefined].  [rushMinimumVersion] is
    read before the schema has been validated, so it may be missing although
    the interface declares it. *)
Record IRushConfigJson := {
  schema : option string;
  commonFolder : string;
  npmVersion : string;
  rushMinimumVersion : option string;
  nodeSupportedVersionRange : option string;
  projectFolderMinDepth : option Z;
  projectFolderMaxDepth : option Z;
  packageReviewFile : option string;
  reviewCategories : option (list string);
  useLocalNpmCache : option bool;
  projects : list IRushConfigProjectJson
}.

(** [delete rushConfigJson.$schema] *)
Definition delete_schema (j : IRushConfigJson) : IRushConfigJson :=
  {| schema := None;
     commonFolder := commonFolder j;
     npmVersion := npmVersion j;
     rushMinimumVersion := rushMinimumVersion j;
     nodeSupportedVersionRange := nodeSupportedVersionRange j;
     projectFolderMinDepth := projectFolderMinDepth j;
     projectFolderMaxDepth := projectFolderMaxDepth j;
     packageReviewFile := packageReviewFile j;
     reviewCategories := reviewCategories j;
     useLocalNpmCache := useLocalNpmCache j;
     projects := projects j |}.

(** The part of a project's own package.json that the constructor reads:
    the ["dependencies"] object, as its (name, version range) entries in key
    order; [None] when the field is absent. *)
Record PackageJson := {
  dependencies : option (list (string * string))
}.

(** [Object.keys(packageJson.dependencies)] *)
Definition dependencyNames (p : PackageJson) : list string :=
  match dependencies p with
  | Some entries => entries.*1
  | None => []
  end.

(** Modelled from the spec: the class [RushConfigProject], whose source file
    [./RushConfigProject] is not part of the sources.  The spec gives a
    project its [packageName], [projectFolder], [reviewCategory] and
    [cyclicDependencyProjects] from the manifest entry, its declared
    dependencies from the package's own package.json, the temp build
    identifier it is assigned, and a [downstreamDependencyProjects] sequence
    that is empty until the constructor of [RushConfig] fills it. *)
Record RushConfigProject := {
  rcp_packageName : string;
  rcp_projectFolder : string;
  rcp_reviewCategory : option string;
  rcp_cyclicDependencyProjects : list string;
  rcp_packageJson : PackageJson;
  rcp_tempProjectName : option string;
  rcp_downstreamDependencyProjects : list string
}.

(** [project.downstreamDependencyProjects.push(name)] *)
Definition push_downstream (name : string) (p : RushConfigProject) : RushConfigProject :=
  {| rcp_packageName := rcp_packageName p;
     rcp_projectFolder := rcp_projectFolder p;
     rcp_reviewCategory := rcp_reviewCategory p;
     rcp_cyclicDependencyProjects := rcp_cyclicDependencyProjects p;
     rcp_packageJson := rcp_packageJson p;
     rcp_tempProjectName := rcp_tempProjectName p;
     rcp_downstreamDependencyProjects :=
       (rcp_downstreamDependencyProjects p ++ [name])%list |}.

(** [ZSchema.ErrorDetail], the fields that the error message prints. *)
Record ErrorDetail := {
  detail_path : string;
  detail_code : string;
  detail_message : string
}.

(** The object built by the constructor: the private fields of [RushConfig]. *)
Record RushConfig := {
  _rushJsonFolder : string;
  _commonFolder : string;
  _commonFolderName : string;
  _cacheFolder : option string;
  _tmpFolder : option string;
  _tempModulesFolder : string;
  _homeFolder : string;
  _rushLinkJsonFilename : string;
  _npmToolVersion : string;
  _npmToolFilename : string;
  _projectFolderMinDepth : Z;
  _projectFolderMaxDepth : Z;
  _packageReviewFile : option string;
  _reviewCategories : gset string;
  _projects : list RushConfigProject;
  _projectsByName : gmap string nat
}.

(** ** Errors *)

(** One constructor per [throw] of the class, plus [CollaboratorError] for an
    exception raised inside a collaborator ([JsonFile.loadJsonFile],
    [path.resolve]). *)
Inductive RushError :=
  | RushVersionTooOld (toolVersion minimumVersion : string)
  | SchemaViolation (errorMessage : string)
  | RushJsonNotFound
  | NodeRangeMalformed (range : string)
  | NodeVersionUnsupported (nodeVersion range : string)
  | CommonFolderMissing (folder : string)
  | HomeFolderUnknown
  | MinDepthInvalid
  | MaxDepthInvalid
  | PackageReviewFileMissing (file : string)
  | DuplicateProjectName (name : string)
  | UnknownCyclicDependency (cyclicDependencyProject referrer : string)
  | CollaboratorError (text : string).

Definition message (e : RushError) : string :=
  match e with
  | RushVersionTooOld v m =>
      "Your rush tool is version " +:+ v +:+ ", but rush.json"
      +:+ " requires version " +:+ m +:+ " or newer.  To upgrade,"
      +:+ " run " +:+ Js.dquote +:+ "npm install @microsoft/rush -g" +:+ Js.dquote +:+ "."
  | SchemaViolation errorMessage => errorMessage
  | RushJsonNotFound => "Unable to find rush.json configuration file"
  | NodeRangeMalformed r =>
      "Error parsing the node-semver expression in the "
      +:+ Js.dquote +:+ "nodeSupportedVersionRange" +:+ Js.dquote
      +:+ " field from rush.json: " +:+ Js.dquote +:+ r +:+ Js.dquote
  | NodeVersionUnsupported v r =>
      "Your dev environment is running Node.js version " +:+ v +:+ " which does"
      +:+ " not meet the requirements for building this repository.  (The rush.json configuration"
      +:+ " requires nodeSupportedVersionRange=" +:+ Js.dquote +:+ r +:+ Js.dquote +:+ ")"
  | CommonFolderMissing f => "Rush common folder does not exist: " +:+ f
  | HomeFolderUnknown => "Unable to determine the current user's home directory"
  | MinDepthInvalid => "Invalid projectFolderMinDepth; the minimum possible value is 1"
  | MaxDepthInvalid =>
      "The projectFolderMaxDepth cannot be smaller than the projectFolderMinDepth"
  | PackageReviewFileMissing f =>
      "The packageReviewFile file was not found: " +:+ Js.dquote +:+ f +:+ Js.dquote
  | DuplicateProjectName n =>
      "The project name " +:+ Js.dquote +:+ n +:+ Js.dquote +:+ " was specified more than once"
      +:+ " in the rush.json config file."
  | UnknownCyclicDependency c referrer =>
      "In rush.json, the " +:+ Js.dquote +:+ c +:+ Js.dquote +:+ " project does not exist,"
      +:+ " but was referenced by the cyclicDependencyProjects for " +:+ referrer
  | CollaboratorError text => text
  end.

(** How a call ends: it returns, it throws, or its [while] loop is still
    running when the fuel of the model is used up. *)
Inductive Completion (A : Type) :=
  | Normal (a : A)
  | Throw (e : RushError)
  | OutOfFuel.
Arguments Normal {A} a.
Arguments Throw {A} e.
Arguments OutOfFuel {A}.

Global Instance completion_ret : MRet Completion := λ _ a, Normal a.

Global Instance completion_bind : MBind Completion := λ _ _ k c,
  match c with
  | Normal a => k a
  | Throw e => Throw e
  | OutOfFuel => OutOfFuel
  end.

(** ** The host *)

(** What the loaders do to the outside world. *)
Inductive Event :=
  | EvLoadJsonFile (file : string)
  | EvExistsSync (file : string)
  | EvConsoleLog (text : string)
  | EvNewValidator
  | EvValidate.

(** The collaborators of [RushConfig].  An exception of [loadJsonFile] is an
    [inl] with its text.  The file system is read-only for this class, so
    [fs.existsSync] is a function of the path. *)
Class Host := {
  (* semver *)
  semver_valid : string → bool;
  semver_lt : string → string → bool;
  semver_validRange : string → bool;
  semver_satisfies : string → string → bool;
  (* '../rushVersion' *)
  rushVersion : string;
  (* process, os, __dirname *)
  process_cwd : string;
  process_version : string;
  process_platform : string;
  process_env : string → option string;
  os_EOL : string;
  dirname__ : string;
  (* fs and path *)
  fs_existsSync : string → bool;
  path_join : list string → string;
  path_resolve : string → string;
  path_resolve_undefined : string; (* text of the TypeError of [path.resolve(undefined)] *)
  path_dirname : string → string;
  path_basename : string → string;
  (* JsonFile.loadJsonFile, for rush.json and for the schema *)
  Schema : Type;
  loadRushJson : string → string + IRushConfigJson;
  loadSchema : string → string + Schema;
  (* z-schema: [None] when the object is valid, else [details[0]] of
     [validator.getLastError()] *)
  validator_validate : IRushConfigJson → Schema → option ErrorDetail;
  (* Utilities.parseScopedPackgeName(name).name *)
  parseScopedPackgeName_name : string → string;
  (* the package.json that [new RushConfigProject] reads in a project folder *)
  readPackageJson : string → PackageJson
}.

(** A computation of the loaders: the events it performed, in order, and
    how it ended. *)
Record Traced (A : Type) := {
  trace : list Event;
  outcome : Completion A
}.
Arguments trace {A} _.
Arguments outcome {A} _.

Global Instance traced_ret : MRet Traced := λ _ a,
  {| trace := []; outcome := Normal a |}.

Global Instance traced_bind : MBind Traced := λ _ _ k c,
  match outcome c with
  | Normal a => {| trace := trace c ++ trace (k a); outcome := outcome (k a) |}
  | Throw e => {| trace := trace c; outcome := Throw e |}
  | OutOfFuel => {| trace := trace c; outcome := OutOfFuel |}
  end.

(** An event and the answer of the host to it. *)
Definition perform {A} (ev : Event) (answer : A) : Traced A :=
  {| trace := [ev]; outcome := Normal answer |}.

(** A pure computation, run inside a loader. *)
Definition lift {A} (c : Completion A) : Traced A :=
  {| trace := []; outcome := c |}.

Definition throw {A} (e : RushError) : Traced A := lift (Throw e).

(** ** The class *)

Section RushConfig.
Context `{Host}.

(** *** _generateTempNamesForProjects *)

(** The array holds references to the objects that [JSON.parse] allocated,
    and the [Map] that the function returns is keyed by those references: an
    element of the array is a pair of the identity of the object and its
    contents. *)
Definition ProjectRef : Type := nat * IRushConfigProjectJson.

(** The comparison function handed to [sort], as it is written:
    [(a, b) => a.packageName.localeCompare(a.packageName)]. *)
Definition compareProjects (a b : ProjectRef) : Z :=
  Js.localeCompare (packageName a.2) (packageName a.2).

(** The [while] loop that looks for a free name.  [fuel] bounds the number
    of times the body runs; [None] when it is used up. *)
Fixpoint while_used (fuel : nat) (usedTempNames : gset string) (unscopedName : string)
    (counter : nat) (tempProjectName : string) : option string :=
  if decide (tempProjectName ∈ usedTempNames) then
    match fuel with
    | 0 => None
    | S fuel' =>
        let counter := S counter in
        let tempProjectName := "rush-" +:+ unscopedName +:+ "-" +:+ pretty counter in
        while_used fuel' usedTempNames unscopedName counter tempProjectName
    end
  else Some tempProjectName.

(** The [for ... of] loop over the sorted array, on the two collections it
    updates.  The body of the [while] loop can run at most once per used
    name, plus once, so the fuel it gets is enough ([while_used_fuel]). *)
Fixpoint for_sortedProjectJsons (sortedProjectJsons : list ProjectRef)
    (usedTempNames : gset string) (tempNamesByProject : gmap nat string)
    : option (gmap nat string) :=
  match sortedProjectJsons with
  | [] => Some tempNamesByProject
  | projectJson :: rest =>
      let unscopedName := parseScopedPackgeName_name (packageName projectJson.2) in
      let counter := 0 in
      let tempProjectName := "rush-" +:+ unscopedName in
      tempProjectName ← while_used (S (size usedTempNames)) usedTempNames
                          unscopedName counter tempProjectName;
      for_sortedProjectJsons rest
        ({[tempProjectName]} ∪ usedTempNames)
        (<[projectJson.1 := tempProjectName]> tempNamesByProject)
  end.

(** [sort] works in place, so the caller's array is reordered as well: the
    result is the array after the call together with the returned [Map]. *)
Definition _generateTempNamesForProjects (projectJsons : list ProjectRef)
    : option (list ProjectRef * gmap nat string) :=
  let sortedProjectJsons := Js.sort compareProjects projectJsons in
  tempNamesByProject ← for_sortedProjectJsons sortedProjectJsons ∅ ∅;
  Some (sortedProjectJsons, tempNamesByProject).

(** *** The constructor *)

Definition throw_if (condition : bool) (e : RushError) : Completion unit :=
  if condition then Throw e else Normal ().

(** Lines 172-232: the checks of the settings and the fields they fill, up
    to the two empty collections [_projects] and [_projectsByName]. *)
Definition constructor_fields (rushConfigJson : IRushConfigJson) (rushJsonFilename : string)
    : Completion RushConfig :=
  match Js.if_truthy (nodeSupportedVersionRange rushConfigJson) with
  | Some range =>
      throw_if (negb (semver_validRange range)) (NodeRangeMalformed range);;
      throw_if (negb (semver_satisfies process_version range))
        (NodeVersionUnsupported process_version range)
  | None => Normal ()
  end;;
  let rushJsonFolder := path_dirname rushJsonFilename in
  let commonFolder_ := path_resolve (path_join [rushJsonFolder; commonFolder rushConfigJson]) in
  throw_if (negb (fs_existsSync commonFolder_))
    (CommonFolderMissing (commonFolder rushConfigJson));;
  let commonFolderName := path_basename commonFolder_ in
  let useCache := bool_decide (useLocalNpmCache rushConfigJson = Some true) in
  let cacheFolder :=
    if useCache then Some (path_resolve (path_join [commonFolder_; "npm-cache"])) else None in
  let tmpFolder :=
    if useCache then Some (path_resolve (path_join [commonFolder_; "npm-tmp"])) else None in
  let tempModulesFolder := path_join [commonFolder_; "temp_modules"] in
  let unresolvedUserFolder :=
    process_env (if bool_decide (process_platform = "win32") then "USERPROFILE" else "HOME") in
  homeFolder ← match unresolvedUserFolder with
               | Some folder => Normal (path_resolve folder)
               | None => Throw (CollaboratorError path_resolve_undefined)
               end;
  throw_if (negb (fs_existsSync homeFolder)) HomeFolderUnknown;;
  let rushLinkJsonFilename := path_join [commonFolder_; "rush-link.json"] in
  let npmToolVersion := npmVersion rushConfigJson in
  let npmToolFilename :=
    path_join [commonFolder_; "npm-local"; "node_modules"; ".bin"; "npm"] in
  let minDepth := default 1%Z (projectFolderMinDepth rushConfigJson) in
  throw_if (minDepth <? 1)%Z MinDepthInvalid;;
  let maxDepth := default 2%Z (projectFolderMaxDepth rushConfigJson) in
  throw_if (maxDepth <? minDepth)%Z MaxDepthInvalid;;
  packageReviewFile_ ←
    match Js.if_truthy (packageReviewFile rushConfigJson) with
    | Some file =>
        let resolved := path_resolve (path_join [rushJsonFolder; file]) in
        throw_if (negb (fs_existsSync resolved)) (PackageReviewFileMissing resolved);;
        Normal (Some resolved)
    | None => Normal None
    end;
  let reviewCategories_ : gset string :=
    list_to_set (default [] (reviewCategories rushConfigJson)) in
  Normal {| _rushJsonFolder := rushJsonFolder;
            _commonFolder := commonFolder_;
            _commonFolderName := commonFolderName;
            _cacheFolder := cacheFolder;
            _tmpFolder := tmpFolder;
            _tempModulesFolder := tempModulesFolder;
            _homeFolder := homeFolder;
            _rushLinkJsonFilename := rushLinkJsonFilename;
            _npmToolVersion := npmToolVersion;
            _npmToolFilename := npmToolFilename;
            _projectFolderMinDepth := minDepth;
            _projectFolderMaxDepth := maxDepth;
            _packageReviewFile := packageReviewFile_;
            _reviewCategories := reviewCategories_;
            _projects := [];
            _projectsByName := ∅ |}.

(** Modelled from the spec: [new RushConfigProject(projectJson, this,
    tempProjectName)], the constructor of the class that is not part of the
    sources.  It copies the manifest entry, reads the package.json of the
    project folder and starts with no downstream project. *)
Definition new_RushConfigProject (projectJson : IRushConfigProjectJson)
    (tempProjectName : option string) : RushConfigProject :=
  {| rcp_packageName := packageName projectJson;
     rcp_projectFolder := projectFolder projectJson;
     rcp_reviewCategory := reviewCategory projectJson;
     rcp_cyclicDependencyProjects := default [] (cyclicDependencyProjects projectJson);
     rcp_packageJson := readPackageJson (projectFolder projectJson);
     rcp_tempProjectName := tempProjectName;
     rcp_downstreamDependencyProjects := [] |}.

(** Lines 237-246, the first loop.  [_projects] is the array of the project
    objects; [_projectsByName] holds references to the same objects, a
    reference being the index of the object in [_projects]. *)
Fixpoint for_projectJsons (projectJsons : list ProjectRef)
    (tempNamesByProject : gmap nat string)
    (projects_ : list RushConfigProject) (projectsByName : gmap string nat)
    : Completion (list RushConfigProject * gmap string nat) :=
  match projectJsons with
  | [] => Normal (projects_, projectsByName)
  | projectJson :: rest =>
      let tempProjectName := tempNamesByProject !! projectJson.1 in
      let project := new_RushConfigProject projectJson.2 tempProjectName in
      let reference := length projects_ in
      let projects_ := (projects_ ++ [project])%list in
      match projectsByName !! rcp_packageName project with
      | Some _ => Throw (DuplicateProjectName (rcp_packageName project))
      | None =>
          for_projectJsons rest tempNamesByProject projects_
            (<[rcp_packageName project := reference]> projectsByName)
      end
  end.

(** Lines 249-254: [project.cyclicDependencyProjects.forEach(...)]. *)
Fixpoint forEach_cyclicDependencyProject (projectsByName : gmap string nat)
    (project : RushConfigProject) (names : list string) : Completion unit :=
  match names with
  | [] => Normal ()
  | cyclicDependencyProject :: rest =>
      match projectsByName !! cyclicDependencyProject with
      | None =>
          Throw (UnknownCyclicDependency cyclicDependencyProject (rcp_packageName project))
      | Some _ => forEach_cyclicDependencyProject projectsByName project rest
      end
  end.

(** Lines 257-265: the [push] changes the object that [_projects] and
    [_projectsByName] share. *)
Definition forEach_dependencyName (projectsByName : gmap string nat)
    (project : RushConfigProject) (projects_ : list RushConfigProject)
    : list RushConfigProject :=
  match dependencies (rcp_packageJson project) with
  | Some entries =>
      foldl (λ projects_ dependencyName,
               match projectsByName !! dependencyName with
               | Some depProject =>
                   alter (push_downstream (rcp_packageName project)) depProject projects_
               | None => projects_
               end)
            projects_ entries.*1
  | None => projects_
  end.

(** Lines 248-266, the second loop, over the indices of [_projects]. *)
Fixpoint for_projects (indices : list nat) (projectsByName : gmap string nat)
    (projects_ : list RushConfigProject) : Completion (list RushConfigProject) :=
  match indices with
  | [] => Normal projects_
  | i :: rest =>
      match projects_ !! i with
      | Some project =>
          forEach_cyclicDependencyProject projectsByName project
            (rcp_cyclicDependencyProjects project);;
          for_projects rest projectsByName
            (forEach_dependencyName projectsByName project projects_)
      | None => Normal projects_
      end
  end.

(** Lines 234-266: the temp names, then the two loops.  The objects of the
    ["projects"] array are identified by their position in the manifest. *)
Definition constructor_projects (projectJsons : list IRushConfigProjectJson)
    : Completion (list RushConfigProject * gmap string nat) :=
  match _generateTempNamesForProjects (imap pair projectJsons) with
  | None => OutOfFuel
  | Some (projectJsons, tempNamesByProject) =>
      '(projects_, projectsByName) ← for_projectJsons projectJsons tempNamesByProject [] ∅;
      projects_ ← for_projects (seq 0 (length projects_)) projectsByName projects_;
      Normal (projects_, projectsByName)
  end.

Definition constructor (rushConfigJson : IRushConfigJson) (rushJsonFilename : string)
    : Completion RushConfig :=
  this ← constructor_fields rushConfigJson rushJsonFilename;
  '(projects_, projectsByName) ← constructor_projects (projects rushConfigJson);
  Normal {| _rushJsonFolder := _rushJsonFolder this;
            _commonFolder := _commonFolder this;
            _commonFolderName := _commonFolderName this;
            _cacheFolder := _cacheFolder this;
            _tmpFolder := _tmpFolder this;
            _tempModulesFolder := _tempModulesFolder this;
            _homeFolder := _homeFolder this;
            _rushLinkJsonFilename := _rushLinkJsonFilename this;
            _npmToolVersion := _npmToolVersion this;
            _npmToolFilename := _npmToolFilename this;
            _projectFolderMinDepth := _projectFolderMinDepth this;
            _projectFolderMaxDepth := _projectFolderMaxDepth this;
            _packageReviewFile := _packageReviewFile this;
            _reviewCategories := _reviewCategories this;
            _projects := projects_;
            _projectsByName := projectsByName |}.

(** [getProjectByName] *)
Definition getProjectByName (this : RushConfig) (projectName : string)
    : option RushConfigProject :=
  i ← _projectsByName this !! projectName; _projects this !! i.

(** *** loadFromConfigFile *)

(** [JsonFile.loadJsonFile(file)], with the loader of the host for the kind
    of document that is expected at [file]. *)
Definition JsonFile_loadJsonFile {A} (load : string → string + A) (file : string)
    : Traced A :=
  match load file with
  | inr document => perform (EvLoadJsonFile file) document
  | inl text =>
      {| trace := [EvLoadJsonFile file]; outcome := Throw (CollaboratorError text) |}
  end.

Definition loadFromConfigFile (rushJsonFilename : string) : Traced RushConfig :=
  rushConfigJson ← JsonFile_loadJsonFile loadRushJson rushJsonFilename;
  (* Check the Rush version *before* we validate the schema *)
  match Js.if_truthy (rushMinimumVersion rushConfigJson) with
  | Some minimumVersion =>
      if semver_valid minimumVersion then
        if semver_lt rushVersion minimumVersion
        then throw (RushVersionTooOld rushVersion minimumVersion)
        else mret ()
      else mret ()
  | None => mret ()
  end;;
  let rushConfigJson := delete_schema rushConfigJson in
  perform EvNewValidator ();;
  rushSchema ← JsonFile_loadJsonFile loadSchema (path_join [dirname__; "../rush-schema.json"]);
  lastError ← perform EvValidate (validator_validate rushConfigJson rushSchema);
  match lastError with
  | Some detail =>
      let errorMessage :=
        "Error parsing file '" +:+ path_basename rushJsonFilename +:+ "',"
        +:+ "section[" +:+ detail_path detail +:+ "]:" +:+ os_EOL
        +:+ "(" +:+ detail_code detail +:+ ") " +:+ detail_message detail in
      perform (EvConsoleLog (os_EOL +:+ "ERROR: " +:+ errorMessage +:+ os_EOL +:+ os_EOL)) ();;
      throw (SchemaViolation errorMessage)
  | None => mret ()
  end;;
  lift (constructor rushConfigJson rushJsonFilename).

(** *** loadFromDefaultLocation *)

(** The [for] loop of [loadFromDefaultLocation]: [remaining] is [10 - i], the
    number of iterations that are left.  Leaving the loop, by its bound or by
    [break], reaches the [throw] that follows it. *)
Fixpoint for_parentFolders (remaining i : nat) (currentFolder : string)
    : Traced RushConfig :=
  match remaining with
  | 0 => throw RushJsonNotFound
  | S remaining' =>
      let rushJsonFilename := path_join [currentFolder; "rush.json"] in
      found ← perform (EvExistsSync rushJsonFilename) (fs_existsSync rushJsonFilename);
      if found : bool then
        (if (0 <? i)%nat
         then perform (EvConsoleLog ("Found config in " +:+ rushJsonFilename)) ()
         else mret ());;
        perform (EvConsoleLog EmptyString) ();;
        loadFromConfigFile rushJsonFilename
      else
        let parentFolder := path_dirname currentFolder in
        if bool_decide (parentFolder = currentFolder)
        then throw RushJsonNotFound
        else for_parentFolders remaining' (S i) parentFolder
  end.

Definition loadFromDefaultLocation : Traced RushConfig :=
  for_parentFolders 10 0 process_cwd.

End RushConfig.

(** ** A concrete host, to run the model *)

Module Example.

(** Modelled from the spec: [Utilities.parseScopedPackgeName(name).name],
    whose source file [../utilities/Utilities] is not part of the sources.
    The base identifier is the package name with any scope prefix stripped:
    for ["@ms/MyProject"] the ["MyProject"] part, for an unscoped name the
    name itself. *)
Fixpoint after_slash (s : string) : option string :=
  match s with
  | EmptyString => None
  | String c s' => if Ascii.eqb c "/"%char then Some s' else after_slash s'
  end.

Definition unscopedName (name : string) : string :=
  match name with
  | String "@"%char _ => default name (after_slash name)
  | _ => name
  end.

(** POSIX paths, enough of them for absolute paths without [.] and [..]. *)
Fixpoint split_last (s : string) : option (string * string) :=
  match s with
  | EmptyString => None
  | String c s' =>
      match split_last s' with
      | Some (folder, base) => Some (String c folder, base)
      | None => if Ascii.eqb c "/"%char then Some (EmptyString, s') else None
      end
  end.

Definition dirname (s : string) : string :=
  match split_last s with
  | Some (EmptyString, _) => "/"
  | Some (folder, _) => folder
  | None => "."
  end.

Definition basename (s : string) : string :=
  match split_last s with
  | Some (_, base) => base
  | None => s
  end.

Fixpoint join (parts : list string) : string :=
  match parts with
  | [] => "."
  | [part] => part
  | part :: rest => if bool_decide (part = "/") then "/" +:+ join rest
                    else part +:+ "/" +:+ join rest
  end.

(** A host with the working directory [cwd], the files and folders [files],
    the document [rushJson] in every rush.json, the package.json files
    [packages] (by project folder; a missing one declares no dependency) and
    the tool version [tool] in the release history [releases], oldest first.
    The schema accepts every document unless [schemaError] is given. *)
Definition host (cwd : string) (files : list string) (rushJson : IRushConfigJson)
    (packages : list (string * PackageJson)) (releases : list string) (tool : string)
    (schemaError : option ErrorDetail) : Host :=
  let position (v : string) : option nat := list_find (λ r, r = v) releases ≫= (λ p, Some p.1) in
  {| semver_valid v := bool_decide (v ∈ releases);
     semver_lt a b :=
       match position a, position b with
       | Some i, Some j => bool_decide (i < j)
       | _, _ => false
       end;
     semver_validRange r := bool_decide (r ∈ releases);
     semver_satisfies v r := bool_decide (v = r);
     rushVersion := tool;
     process_cwd := cwd;
     process_version := "4.5.0";
     process_platform := "linux";
     process_env name := if bool_decide (name = "HOME") then Some "/home/dev" else None;
     os_EOL := String (Ascii.ascii_of_nat 10) EmptyString;
     dirname__ := "/opt/rush/lib/data";
     fs_existsSync file := bool_decide (file ∈ files);
     path_join := join;
     path_resolve := id;
     path_resolve_undefined := "Path must be a string. Received undefined";
     path_dirname := dirname;
     path_basename := basename;
     Schema := unit;
     loadRushJson file :=
       if bool_decide (file ∈ files) then inr rushJson else inl ("ENOENT: " +:+ file);
     loadSchema _ := inr ();
     validator_validate _ _ := schemaError;
     parseScopedPackgeName_name := unscopedName;
     readPackageJson folder :=
       default {| dependencies := None |} ((list_to_map packages : gmap string PackageJson) !! folder)
  |}.

Definition project (name folder : string) (cyclic : option (list string))
    : IRushConfigProjectJson :=
  {| packageName := name; projectFolder := folder; reviewCategory := None;
     cyclicDependencyProjects := cyclic |}.

Definition manifest (minimumVersion : option string) (entries : list IRushConfigProjectJson)
    : IRushConfigJson :=
  {| schema := Some "http://example.com/rush-schema.json";
     commonFolder := "common";
     npmVersion := "3.10.8";
     rushMinimumVersion := minimumVersion;
     nodeSupportedVersionRange := None;
     projectFolderMinDepth := None;
     projectFolderMaxDepth := None;
     packageReviewFile := None;
     reviewCategories := None;
     useLocalNpmCache := None;
     projects := entries |}.

Definition depends (names : list string) : PackageJson :=
  {| dependencies := Some ((λ n, (n, "*")) <$> names) |}.

End Example.

(** ** Manifests and hosts of the examples *)

Module Scenario.
Import Example.

Definition rushJson : string := "/repo/rush.json".

(** The repository: rush.json, the common folder and the home folder. *)
Definition files : list string := [rushJson; "/repo/common"; "/home/dev"].

Definition releases : list string := ["1.0.0"; "1.1.0"; "2.0.0"].

(** A host for the manifest [m] and the package.json files [packages],
    running release 1.1.0 of the tool in [/repo/apps/app]. *)
Definition repo (m : IRushConfigJson) (packages : list (string * PackageJson)) : Host :=
  host "/repo/apps/app" files m packages releases "1.1.0" None.

(** [app] depends on [core] and [utils], [utils] depends on [core]. *)
Definition threeProjects : IRushConfigJson :=
  manifest (Some "1.0.0")
    [project "core" "libs/core" None;
     project "utils" "libs/utils" None;
     project "app" "apps/app" None].

Definition threePackages : list (string * PackageJson) :=
  [("libs/utils", depends ["core"]); ("apps/app", depends ["core"; "utils"])].

(** Two packages with the same unscoped name. *)
Definition plain : IRushConfigProjectJson := project "a" "libs/a" None.
Definition scoped : IRushConfigProjectJson := project "@x/a" "libs/x-a" None.

Definition sameUnscopedName : IRushConfigJson := manifest None [plain; scoped].

(** [ping] and [pong] depend on each other; no whitelist mentions it. *)
Definition ping : IRushConfigProjectJson := project "ping" "libs/ping" None.
Definition pong : IRushConfigProjectJson := project "pong" "libs/pong" None.

Definition cyclic : IRushConfigJson := manifest None [ping; pong].

(** The same cycle, listed in the whitelist of both projects. *)
Definition cyclicListed : IRushConfigJson :=
  manifest None [project "ping" "libs/ping" (Some ["pong"]);
                 project "pong" "libs/pong" (Some ["ping"])].

Definition cyclicPackages : list (string * PackageJson) :=
  [("libs/ping", depends ["pong"]); ("libs/pong", depends ["ping"])].

(** [core] is declared twice. *)
Definition duplicated : IRushConfigJson :=
  manifest None [project "core" "libs/core" None;
                 project "utils" "libs/utils" None;
                 project "core" "libs/core2" None].

(** The whitelist of [app] names a project that does not exist. *)
Definition unknownListed : IRushConfigJson :=
  manifest None [project "core" "libs/core" None;
                 project "app" "apps/app" (Some ["core"; "ghost"])].

(** The manifest asks for release 2.0.0; [repo] runs 1.1.0. *)
Definition tooNew : IRushConfigJson := manifest (Some "2.0.0") [].

(** The minimum version is not a version. *)
Definition malformed : IRushConfigJson := manifest (Some "latest") [].

Definition core1 : IRushConfigProjectJson := project "core" "libs/core" None.
Definition core2 : IRushConfigProjectJson := project "core" "libs/core2" None.

(** The hosts of the manifests above. *)
Definition threeProjectsRepo : Host := repo threeProjects threePackages.
Definition sameUnscopedNameRepo : Host := repo sameUnscopedName [].
Definition cyclicRepo : Host := repo cyclic cyclicPackages.
Definition cyclicListedRepo : Host := repo cyclicListed cyclicPackages.
Definition duplicatedRepo : Host := repo duplicated [].
Definition unknownListedRepo : Host := repo unknownListed [].
Definition tooNewRepo : Host := repo tooNew [].
Definition malformedRepo : Host := repo malformed [].

(** A manifest that asks for Node.js 2.0.0; the hosts run 4.5.0. *)
Definition nodeGated : IRushConfigJson :=
  {| schema := None;
     commonFolder := "common";
     npmVersion := "3.10.8";
     rushMinimumVersion := None;
     nodeSupportedVersionRange := Some "2.0.0";
     projectFolderMinDepth := Some 0%Z;
     projectFolderMaxDepth := None;
     packageReviewFile := None;
     reviewCategories := None;
     useLocalNpmCache := None;
     projects := [core1; core2] |}.
Definition nodeGatedRepo : Host := repo nodeGated [].

(** A host whose validator rejects the manifest. *)
Definition typeError : ErrorDetail :=
  {| detail_path := "#/projects";
     detail_code := "INVALID_TYPE";
     detail_message := "Expected type array but found type string" |}.
Definition rejectingRepo : Host :=
  host "/repo/apps/app" files threeProjects threePackages releases "1.1.0"
    (Some typeError).

(** A host without any rush.json above the working directory. *)
Definition noRushJson : Host :=
  host "/repo/apps/app" ["/repo/common"; "/home/dev"] threeProjects [] releases "1.1.0" None.

(** A host whose rush.json is ten folders above the working directory. *)
Definition deep : Host :=
  host "/1/2/3/4/5/6/7/8/9/10/11" ["/1/rush.json"; "/1/common"; "/home/dev"]
    threeProjects [] releases "1.1.0" None.

End Scenario.

(** ** Vocabulary of the properties *)

Section Vocabulary.
Context `{Host}.

(** The name that the loop tries with the counter at [k], for [0 < k]. *)
Definition suffixed (unscopedName : string) (k : nat) : string :=
  "rush-" +:+ unscopedName +:+ "-" +:+ pretty k.

(** What the loop keeps true of its two collections: every assigned name is
    recorded as used, and no name is assigned to two objects. *)
Definition names_distinct (used : gset string) (m : gmap nat string) : Prop :=
  (∀ r name, m !! r = Some name → name ∈ used)
  ∧ (∀ r1 r2 name, m !! r1 = Some name → m !! r2 = Some name → r1 = r2).

(** The first name of a list that is in [seen] or occurs earlier in the
    list: the name that the duplicate check of the first loop reports. *)
Fixpoint firstDuplicate (seen : gset string) (names : list string) : option string :=
  match names with
  | [] => None
  | name :: rest =>
      if decide (name ∈ seen) then Some name
      else firstDuplicate ({[name]} ∪ seen) rest
  end.

(** [_projectsByName] refers, for every name, to the project of that name in
    [_projects], and to nothing else. *)
Definition indexed (ps : list RushConfigProject) (byName : gmap string nat) : Prop :=
  ∀ name i, byName !! name = Some i ↔ ∃ p, ps !! i = Some p ∧ rcp_packageName p = name.

(** The project object that the first loop creates for an element of the
    array. *)
Definition project_of (tempNames : gmap nat string) (projectJson : ProjectRef)
    : RushConfigProject :=
  new_RushConfigProject projectJson.2 (tempNames !! projectJson.1).

(** A project after [names] have been pushed to its downstream list. *)
Definition with_downstream (names : list string) (p : RushConfigProject)
    : RushConfigProject :=
  foldl (λ p name, push_downstream name p) p names.

(** The names that the [forEach] over the dependencies of [project] pushes
    to the project object [j]. *)
Definition pushes_to (byName : gmap string nat) (j : nat) (project : RushConfigProject)
    : list string :=
  dependencyNames (rcp_packageJson project) ≫=
    (λ dependencyName,
       if decide (byName !! dependencyName = Some j) then [rcp_packageName project] else []).

(** [ps'] holds the objects of [ps], with more downstream names. *)
Definition extends (ps ps' : list RushConfigProject) : Prop :=
  ∀ i, ∃ l, ps' !! i = with_downstream l <$> ps !! i.

(** The names pushed to the object [j] while the loop visits [indices]. *)
Definition dependents (byName : gmap string nat) (ps : list RushConfigProject)
    (indices : list nat) (j : nat) : list string :=
  indices ≫= (λ i, match ps !! i with
                   | Some project => pushes_to byName j project
                   | None => []
                   end).

(** The entry [a] declares a dependency on the project of the entry [b] of
    the same manifest, and does not list it in its [cyclicDependencyProjects]. *)
Definition unlisted_dependency (projectJsons : list IRushConfigProjectJson)
    (a b : IRushConfigProjectJson) : Prop :=
  a ∈ projectJsons ∧ b ∈ projectJsons
  ∧ packageName b ∈ dependencyNames (readPackageJson (projectFolder a))
  ∧ packageName b ∉ default [] (cyclicDependencyProjects a).

(** The declared dependencies that no whitelist covers contain a cycle. *)
Definition has_unlisted_cycle (projectJsons : list IRushConfigProjectJson) : Prop :=
  ∃ a, tc (unlisted_dependency projectJsons) a a.

(** The file that holds the schema. *)
Definition schemaFile : string := path_join [dirname__; "../rush-schema.json"].

(** The [k]-th folder of the search, counted from the folder [start]. *)
Definition searchFolder (start : string) (k : nat) : string :=
  Nat.iter k path_dirname start.

(** The rush.json that the [k]-th iteration of the search looks for. *)
Definition candidate (start : string) (k : nat) : string :=
  path_join [searchFolder start k; "rush.json"].

(** The first [n] probes of a search from [start]. *)
Definition probes (start : string) (n : nat) : list Event :=
  (λ k, EvExistsSync (candidate start k)) <$> seq 0 n.

(** The event is a call of [fs.existsSync]. *)
Definition is_probe (ev : Event) : Prop :=
  match ev with
  | EvExistsSync _ => True
  | _ => False
  end.

(** The whitelist entries of a manifest in the order in which the second
    loop of the constructor looks at them, each with the package name of the
    project that lists it. *)
Definition whitelistEntries (projectJsons : list IRushConfigProjectJson)
    : list (string * string) :=
  projectJsons ≫= (λ entry, (λ c, (c, packageName entry))
                              <$> default [] (cyclicDependencyProjects entry)).

End Vocabulary.

(** ** Properties *)

(** *** The sort of [_generateTempNamesForProjects] *)

Lemma localeCompare_self (s : string) : Js.localeCompare s s = 0%Z.
Proof.
  unfold Js.localeCompare.
  pose proof (String.compare_antisym s s) as Hanti.
  destruct (String.compare s s); simpl in Hanti; congruence.
Qed.

Lemma sort_all_equal {A} (compareFn : A → A → Z) (l : list A) :
  (∀ x y, compareFn x y = 0%Z) → Js.sort compareFn l = l.
Proof.
  intros Hzero. induction l as [|x l IH]; simpl; [done|].
  rewrite IH. destruct l as [|y l]; simpl; [done|].
  by rewrite Hzero.
Qed.

Lemma string_length_app (s1 s2 : string) :
  String.length (s1 +:+ s2) = String.length s1 + String.length s2.
Proof. induction s1 as [|c s1 IH]; simpl; [done|]. by rewrite IH. Qed.

Section Properties.
Context `{Host}.

(** The comparison function compares a name with itself, so the sort leaves
    the array in the order of the manifest. *)
Lemma sort_compareProjects (l : list ProjectRef) : Js.sort compareProjects l = l.
Proof. apply sort_all_equal. intros a b. apply localeCompare_self. Qed.

(** *** The [while] loop *)

Lemma suffixed_inj u k1 k2 : suffixed u k1 = suffixed u k2 → k1 = k2.
Proof.
  unfold suffixed. intros Heq.
  do 3 apply String.app_inj in Heq.
  by apply pretty_nat_inj in Heq.
Qed.

Lemma suffixed_not_base u k : suffixed u k ≠ "rush-" +:+ u.
Proof.
  unfold suffixed. intros Heq.
  apply String.app_inj in Heq.
  apply (f_equal String.length) in Heq.
  rewrite string_length_app in Heq. simpl in Heq. lia.
Qed.

Lemma while_used_free fuel used u counter name r :
  while_used fuel used u counter name = Some r → r ∉ used.
Proof.
  revert counter name.
  induction fuel as [|fuel IH]; intros counter name; simpl;
    case_decide; try congruence; eauto.
Qed.

(** [tried] are the names that the loop has found in the set so far. *)
Lemma while_used_returns fuel (used tried : gset string) u counter name :
  tried ⊆ used →
  name ∉ tried →
  (∀ k, counter < k → (suffixed u k ∉ tried) ∧ suffixed u k ≠ name) →
  size used < fuel + size tried + 1 →
  is_Some (while_used fuel used u counter name).
Proof.
  revert tried counter name.
  induction fuel as [|fuel IH]; intros tried counter name Hsub Hname Hnext Hsize;
    simpl; case_decide as Hin; eauto.
  - exfalso.
    assert (size ({[name]} ∪ tried) ≤ size used)%nat as Hle
      by (apply subseteq_size; set_solver).
    rewrite size_union in Hle by set_solver.
    rewrite size_singleton in Hle. lia.
  - apply (IH ({[name]} ∪ tried)).
    + set_solver.
    + destruct (Hnext (S counter)) as [? ?]; [lia|]. set_solver.
    + intros k Hk. destruct (Hnext k) as [? ?]; [lia|].
      split; [set_solver|].
      intros Heq%suffixed_inj. lia.
    + rewrite size_union by set_solver. rewrite size_singleton. lia.
Qed.

(** The fuel that [for_sortedProjectJsons] provides is enough. *)
Lemma while_used_fuel (used : gset string) u :
  ∃ name, while_used (S (size used)) used u 0 ("rush-" +:+ u) = Some name
          ∧ name ∉ used.
Proof.
  destruct (while_used_returns (S (size used)) used ∅ u 0 ("rush-" +:+ u))
    as [name Hname]; [set_solver..| |rewrite size_empty; lia|].
  - intros k _. split; [set_solver|apply suffixed_not_base].
  - exists name. split; [done|]. by eapply while_used_free.
Qed.

(** What the [while] loop returns: the name it starts with when that is
    free; otherwise the name with the lowest free suffix above the counter,
    that is, [-1], [-2], ... for a loop that starts with the counter at 0. *)
Lemma while_used_lowest fuel used u counter name r :
  while_used fuel used u counter name = Some r →
  (r = name ∧ name ∉ used)
  ∨ (name ∈ used
     ∧ ∃ k, (counter < k)%nat ∧ r = suffixed u k ∧ (suffixed u k ∉ used)
            ∧ ∀ k', (counter < k' < k)%nat → suffixed u k' ∈ used).
Proof.
  revert counter name. induction fuel as [|fuel IH]; intros counter name; simpl;
    case_decide as Hused; try done; try (intros [= <-]; by left).
  intros [[-> Hfree]|(Hnext & k & Hk & -> & Hfree & Hbelow)]%IH; right;
    (split; [done|]).
  - exists (S counter). split_and!; [lia|done..|]. intros k' ?. lia.
  - exists k. split_and!; [lia|done..|].
    intros k' Hk'. destruct (decide (k' = S counter)) as [->|]; [done|].
    apply Hbelow. lia.
Qed.

(** *** The loop of [_generateTempNamesForProjects] *)

Lemma names_distinct_insert used m r name :
  names_distinct used m → name ∉ used →
  names_distinct ({[name]} ∪ used) (<[r := name]> m).
Proof.
  intros [Hused Hinj] Hfree. split.
  - intros r' name'. rewrite lookup_insert.
    case_decide; [intros [= <-]; set_solver|].
    intros ?%Hused. set_solver.
  - intros r1 r2 name'. rewrite !lookup_insert.
    repeat case_decide; subst; try done.
    + intros [= <-] ?%Hused. done.
    + intros ?%Hused [= <-]. done.
    + eauto.
Qed.

Lemma for_sortedProjectJsons_returns (l : list ProjectRef) used m :
  names_distinct used m →
  ∃ m', for_sortedProjectJsons l used m = Some m'
        ∧ (∃ used', names_distinct used' m')
        ∧ (∀ r, is_Some (m !! r) ∨ r ∈ l.*1 → is_Some (m' !! r)).
Proof.
  revert used m.
  induction l as [|[r json] l IH]; intros used m Hinv; cbn [for_sortedProjectJsons fst snd].
  - exists m. split_and!; [done|by exists used|].
    intros r [?|Hr]; [done|]. by apply elem_of_nil in Hr.
  - destruct (while_used_fuel used (parseScopedPackgeName_name (packageName json)))
      as (name & -> & Hfree). simpl.
    destruct (IH ({[name]} ∪ used) (<[r := name]> m)) as (m' & Hm' & Hinv' & Hdom).
    { by apply names_distinct_insert. }
    exists m'. split_and!; [done..|].
    intros r' [Hr'|Hr']; apply Hdom.
    + left. rewrite lookup_insert. case_decide; [by eexists|done].
    + apply elem_of_cons in Hr' as [->|?]; [left|by right].
      rewrite lookup_insert_eq. by eexists.
Qed.

(** The generator returns for every array: it leaves the array in the order
    it had, names every object of the array, and gives no name twice. *)
Lemma generateTempNames_returns (projectJsons : list ProjectRef) :
  ∃ tempNames,
    _generateTempNamesForProjects projectJsons = Some (projectJsons, tempNames)
    ∧ (∀ r, r ∈ projectJsons.*1 → is_Some (tempNames !! r))
    ∧ (∀ r1 r2 name, tempNames !! r1 = Some name → tempNames !! r2 = Some name → r1 = r2).
Proof.
  unfold _generateTempNamesForProjects. rewrite sort_compareProjects.
  destruct (for_sortedProjectJsons_returns projectJsons ∅ ∅)
    as (m & -> & [used [_ Hinj]] & Hdom).
  { split; intros *; by rewrite lookup_empty. }
  exists m. split_and!; [done| |done].
  intros r Hr. apply Hdom. by right.
Qed.

(** *** The first loop of the constructor *)

Lemma firstDuplicate_None seen names :
  firstDuplicate seen names = None ↔ NoDup names ∧ ∀ name, name ∈ names → name ∉ seen.
Proof.
  revert seen. induction names as [|name names IH]; intros seen; simpl.
  - split; [|done]. intros _. split; [constructor|]. by intros ? ?%elem_of_nil.
  - case_decide as Hin.
    + split; [done|]. intros [_ Hnot]. destruct (Hnot name); [left|done].
    + rewrite IH, NoDup_cons. set_solver.
Qed.


Lemma indexed_empty : indexed [] ∅.
Proof.
  intros name i. rewrite lookup_empty. split; [done|].
  intros (p & Hp & _). by rewrite lookup_nil in Hp.
Qed.

Lemma indexed_push ps byName p :
  indexed ps byName → byName !! rcp_packageName p = None →
  indexed (ps ++ [p]) (<[rcp_packageName p := length ps]> byName).
Proof.
  intros Hidx Hnew name i. rewrite lookup_insert. case_decide as Hname.
  - subst name. split.
    + intros [= <-]. exists p. split; [|done].
      rewrite lookup_app_r, Nat.sub_diag by lia. done.
    + intros (p' & Hp' & Hsame).
      apply lookup_app_Some in Hp' as [Hp'|[Hlen Hp']].
      * assert (byName !! rcp_packageName p = Some i) as Hold
          by (apply Hidx; eauto).
        congruence.
      * apply list_lookup_singleton_Some in Hp' as [? _]. f_equal. lia.
  - rewrite (Hidx name i). split.
    + intros (p' & Hp' & <-). exists p'. split; [|done].
      by apply lookup_app_l_Some.
    + intros (p' & Hp' & <-).
      apply lookup_app_Some in Hp' as [Hp'|[Hlen Hp']]; [eauto|].
      apply list_lookup_singleton_Some in Hp' as [_ ->]. done.
Qed.

Lemma indexed_names_NoDup ps byName :
  indexed ps byName → NoDup (rcp_packageName <$> ps).
Proof.
  intros Hidx. apply NoDup_alt. intros i j name.
  rewrite !list_lookup_fmap.
  intros (p & Hp & ->)%fmap_Some (q & Hq & Hsame)%fmap_Some.
  assert (byName !! rcp_packageName p = Some i) as Hi by (apply Hidx; eauto).
  assert (byName !! rcp_packageName p = Some j) as Hj by (apply Hidx; eauto).
  congruence.
Qed.

(** The first loop stops at the first repeated name with the error that
    names it, and otherwise creates and indexes one project per element. *)
Lemma for_projectJsons_spec (l : list ProjectRef) tempNames ps byName :
  indexed ps byName →
  match firstDuplicate (dom byName) ((λ r, packageName r.2) <$> l) with
  | Some name =>
      for_projectJsons l tempNames ps byName = Throw (DuplicateProjectName name)
  | None =>
      ∃ byName',
        for_projectJsons l tempNames ps byName
          = Normal ((ps ++ (project_of tempNames <$> l))%list, byName')
        ∧ indexed (ps ++ (project_of tempNames <$> l)) byName'
  end.
Proof.
  revert ps byName. induction l as [|[r json] l IH]; intros ps byName Hidx; simpl.
  - exists byName. by rewrite app_nil_r.
  - case_decide as Hseen.
    + apply elem_of_dom in Hseen as [i Hi]. by rewrite Hi.
    + apply not_elem_of_dom in Hseen. rewrite Hseen.
      specialize (IH (ps ++ [project_of tempNames (r, json)])%list
                     (<[packageName json := length ps]> byName)).
      rewrite dom_insert_L in IH. rewrite <-(assoc_L (++)) in IH. simpl in IH.
      apply IH. by apply (indexed_push ps byName (project_of tempNames (r, json))).
Qed.

(** *** The second loop of the constructor *)

Lemma with_downstream_app l1 l2 p :
  with_downstream (l1 ++ l2) p = with_downstream l2 (with_downstream l1 p).
Proof. apply foldl_app. Qed.

Lemma with_downstream_fields l p :
  rcp_packageName (with_downstream l p) = rcp_packageName p
  ∧ rcp_cyclicDependencyProjects (with_downstream l p) = rcp_cyclicDependencyProjects p
  ∧ rcp_packageJson (with_downstream l p) = rcp_packageJson p
  ∧ rcp_tempProjectName (with_downstream l p) = rcp_tempProjectName p
  ∧ rcp_downstreamDependencyProjects (with_downstream l p)
    = (rcp_downstreamDependencyProjects p ++ l)%list.
Proof.
  revert p. induction l as [|name l IH]; intros p; simpl.
  - by rewrite app_nil_r.
  - destruct (IH (push_downstream name p)) as (-> & -> & -> & -> & ->).
    simpl. by rewrite <-(assoc_L (++)).
Qed.

Lemma pushes_to_with_downstream byName j l p :
  pushes_to byName j (with_downstream l p) = pushes_to byName j p.
Proof.
  unfold pushes_to.
  by destruct (with_downstream_fields l p) as (-> & _ & -> & _).
Qed.

Lemma forEach_dependencyName_lookup byName project ps j :
  forEach_dependencyName byName project ps !! j
  = with_downstream (pushes_to byName j project) <$> ps !! j.
Proof.
  unfold forEach_dependencyName, pushes_to, dependencyNames.
  destruct (dependencies (rcp_packageJson project)) as [entries|]; simpl.
  2: { by destruct (ps !! j). }
  generalize (entries.*1). clear entries. intros keys. revert ps.
  induction keys as [|key keys IH]; intros ps.
  { simpl. by destruct (ps !! j). }
  cbn [foldl]. rewrite IH, bind_cons.
  destruct (byName !! key) as [d|] eqn:Hkey.
  - case_decide as Hd.
    + injection Hd as ->. rewrite list_lookup_alter_eq.
      destruct (ps !! j); [|done]. cbn [fmap option_fmap option_map].
      by rewrite with_downstream_app.
    + rewrite list_lookup_alter_ne by congruence. by destruct (ps !! j).
  - rewrite decide_False by done. by destruct (ps !! j).
Qed.

Lemma extends_refl ps : extends ps ps.
Proof. intros i. exists []. by destruct (ps !! i). Qed.

Lemma extends_forEach ps ps' byName project :
  extends ps ps' → extends ps (forEach_dependencyName byName project ps').
Proof.
  intros Hext i. destruct (Hext i) as [l Hl].
  exists (l ++ pushes_to byName i project)%list.
  rewrite forEach_dependencyName_lookup, Hl.
  destruct (ps !! i); simpl; [|done]. by rewrite with_downstream_app.
Qed.

Lemma extends_length ps ps' : extends ps ps' → length ps' = length ps.
Proof.
  intros Hext.
  destruct (Nat.lt_trichotomy (length ps') (length ps)) as [Hlt|[?|Hlt]]; [|done|].
  - destruct (Hext (length ps')) as [l Hl].
    apply lookup_lt_is_Some in Hlt as [p Hp]. rewrite Hp in Hl.
    rewrite lookup_ge_None_2 in Hl by lia. done.
  - destruct (Hext (length ps)) as [l Hl].
    apply lookup_lt_is_Some in Hlt as [p Hp]. rewrite Hp in Hl.
    rewrite lookup_ge_None_2 in Hl by lia. done.
Qed.

Lemma dependents_cons byName ps i indices j :
  dependents byName ps (i :: indices) j
  = (match ps !! i with
     | Some project => pushes_to byName j project
     | None => []
     end ++ dependents byName ps indices j)%list.
Proof. unfold dependents. by rewrite bind_cons. Qed.

Lemma dependents_extends byName ps ps' indices j :
  extends ps ps' → dependents byName ps' indices j = dependents byName ps indices j.
Proof.
  intros Hext. unfold dependents. apply list_bind_ext; [|done].
  intros i. destruct (Hext i) as [l ->].
  destruct (ps !! i); simpl; [|done]. apply pushes_to_with_downstream.
Qed.

(** When the second loop completes, every project object has received the
    names of its dependents, in the order of the visits. *)
Lemma for_projects_Normal indices byName ps ps' :
  (∀ i, i ∈ indices → (i < length ps)%nat) →
  for_projects indices byName ps = Normal ps' →
  ∀ j, ps' !! j = with_downstream (dependents byName ps indices j) <$> ps !! j.
Proof.
  revert ps. induction indices as [|i indices IH]; intros ps Hrange; simpl.
  - intros [= <-] j. by destruct (ps !! j).
  - destruct (lookup_lt_is_Some_2 ps i) as [project Hproject];
      [apply Hrange; left|].
    rewrite Hproject.
    destruct (forEach_cyclicDependencyProject _ _ _); simpl; [|done..].
    intros Hrest j.
    pose proof (extends_forEach ps ps byName project (extends_refl ps)) as Hext.
    rewrite (IH (forEach_dependencyName byName project ps)); [| |done].
    + rewrite (dependents_extends _ ps) by done.
      rewrite forEach_dependencyName_lookup.
      destruct (ps !! j); [|done]. cbn [fmap option_fmap option_map].
      by rewrite with_downstream_app.
    + intros i' Hi'. rewrite (extends_length ps) by done.
      apply Hrange. by right.
Qed.

Lemma forEach_cyclicDependencyProject_outcome byName project names :
  (forEach_cyclicDependencyProject byName project names = Normal ()
   ∧ ∀ c, c ∈ names → is_Some (byName !! c))
  ∨ (∃ c, c ∈ names ∧ byName !! c = None
          ∧ forEach_cyclicDependencyProject byName project names
            = Throw (UnknownCyclicDependency c (rcp_packageName project))).
Proof.
  induction names as [|c names IH]; simpl.
  - left. split; [done|]. by intros ? ?%elem_of_nil.
  - destruct (byName !! c) as [i|] eqn:Hc.
    + destruct IH as [[-> Hall]|(c' & Hc' & Hnone & ->)].
      * left. split; [done|].
        intros c' [->|?]%elem_of_cons; [by eexists|eauto].
      * right. exists c'. split_and!; [by right|done..].
    + right. exists c. split_and!; [by left|done..].
Qed.

(** The second loop either completes, and then every whitelist entry of the
    visited projects is a known name, or it throws for an entry that is not. *)
Lemma for_projects_outcome indices byName ps0 ps :
  extends ps0 ps →
  (∀ i, i ∈ indices → (i < length ps0)%nat) →
  (∃ ps', for_projects indices byName ps = Normal ps'
          ∧ ∀ i p c, i ∈ indices → ps0 !! i = Some p →
                     c ∈ rcp_cyclicDependencyProjects p → is_Some (byName !! c))
  ∨ (∃ i p c, i ∈ indices ∧ ps0 !! i = Some p
              ∧ c ∈ rcp_cyclicDependencyProjects p ∧ byName !! c = None
              ∧ for_projects indices byName ps
                = Throw (UnknownCyclicDependency c (rcp_packageName p))).
Proof.
  revert ps. induction indices as [|i indices IH]; intros ps Hext Hrange; simpl.
  - left. exists ps. split; [done|]. by intros ? ? ? ?%elem_of_nil.
  - destruct (lookup_lt_is_Some_2 ps0 i) as [p0 Hp0]; [apply Hrange; left|].
    destruct (Hext i) as [l Hl]. rewrite Hp0 in Hl. simpl in Hl. rewrite Hl.
    destruct (with_downstream_fields l p0) as (Hname & Hcyclic & _).
    rewrite Hcyclic.
    destruct (forEach_cyclicDependencyProject_outcome byName
                (with_downstream l p0) (rcp_cyclicDependencyProjects p0))
      as [[-> Hall]|(c & Hc & Hnone & ->)]; simpl.
    + destruct (IH (forEach_dependencyName byName (with_downstream l p0) ps))
        as [(ps' & -> & Hall')|(i' & p & c & Hi' & Hp & Hc & Hnone & ->)].
      * by apply extends_forEach.
      * intros i' Hi'. apply Hrange. by right.
      * left. exists ps'. split; [done|].
        intros i' p c [->|Hi']%elem_of_cons Hp Hc; [|by eauto].
        apply Hall. congruence.
      * right. exists i', p, c. split_and!; [by right|done..].
    + right. exists i, p0, c. rewrite Hname. split_and!; [by left|done..].
Qed.

(** *** The two loops together *)

Lemma names_of_refs (projectJsons : list IRushConfigProjectJson) :
  (λ r : ProjectRef, packageName r.2) <$> imap pair projectJsons
  = packageName <$> projectJsons.
Proof. rewrite fmap_imap. apply imap_const. Qed.

(** What [constructor_projects] does with the projects of a manifest: the
    duplicate check of the first loop comes first, then the whitelist check
    of the second loop; when both pass, the project objects are those of the
    first loop with the names of their dependents pushed. *)
Lemma constructor_projects_outcome (projectJsons : list IRushConfigProjectJson) :
  match firstDuplicate ∅ (packageName <$> projectJsons) with
  | Some name =>
      constructor_projects projectJsons = Throw (DuplicateProjectName name)
  | None =>
      ∃ tempNames ps byName,
        ps = project_of tempNames <$> imap pair projectJsons
        ∧ (∀ r, (r < length projectJsons)%nat → is_Some (tempNames !! r))
        ∧ (∀ r1 r2 name,
             tempNames !! r1 = Some name → tempNames !! r2 = Some name → r1 = r2)
        ∧ indexed ps byName
        ∧ ((∃ ps', constructor_projects projectJsons = Normal (ps', byName)
                   ∧ (∀ j, ps' !! j
                           = with_downstream
                               (dependents byName ps (seq 0 (length ps)) j) <$> ps !! j)
                   ∧ (∀ p c, p ∈ ps → c ∈ rcp_cyclicDependencyProjects p →
                             is_Some (byName !! c)))
           ∨ (∃ p c, p ∈ ps ∧ c ∈ rcp_cyclicDependencyProjects p
                     ∧ byName !! c = None
                     ∧ constructor_projects projectJsons
                       = Throw (UnknownCyclicDependency c (rcp_packageName p))))
  end.
Proof.
  unfold constructor_projects.
  destruct (generateTempNames_returns (imap pair projectJsons))
    as (tempNames & -> & Hnamed & Hinj).
  pose proof (for_projectJsons_spec (imap pair projectJsons) tempNames [] ∅
                indexed_empty) as Hfirst.
  rewrite dom_empty_L, names_of_refs in Hfirst.
  destruct (firstDuplicate ∅ (packageName <$> projectJsons)) as [name|].
  { by rewrite Hfirst. }
  destruct Hfirst as (byName & Hfirst & Hidx). simpl in Hfirst, Hidx.
  rewrite Hfirst. simpl.
  set (ps := project_of tempNames <$> imap pair projectJsons) in *.
  exists tempNames, ps, byName. split_and!; [done| |done..|].
  { intros r Hr. apply Hnamed.
    apply lookup_lt_is_Some_2 in Hr as [json Hjson].
    apply list_elem_of_fmap. exists (r, json). split; [done|].
    by apply (elem_of_lookup_imap_2 pair projectJsons json r). }
  destruct (for_projects_outcome (seq 0 (length ps)) byName ps ps (extends_refl ps))
    as [(ps' & Hps' & Hall)|(i & p & c & Hi & Hp & Hc & Hnone & Hthrow)].
  { intros i Hi%elem_of_seq. lia. }
  - left. exists ps'. rewrite Hps'. simpl. split_and!; [done| |].
    + apply for_projects_Normal; [|done]. intros i Hi%elem_of_seq. lia.
    + intros p c (i & Hi)%list_elem_of_lookup Hc.
      apply (Hall i p c); [|done..].
      apply elem_of_seq. apply lookup_lt_Some in Hi. lia.
  - right. exists p, c. rewrite Hthrow. simpl.
    split_and!; [|done..]. apply list_elem_of_lookup. eauto.
Qed.

(** *** The constructor *)

Lemma throw_if_outcome condition e :
  throw_if condition e = Normal () ∨ throw_if condition e = Throw e.
Proof. destruct condition; eauto. Qed.

(** The checks of the settings have no loop: they return or they throw. *)
Lemma constructor_fields_outcome json file :
  (∃ this, constructor_fields json file = Normal this)
  ∨ (∃ e, constructor_fields json file = Throw e).
Proof.
  unfold constructor_fields.
  repeat match goal with
         | |- context [throw_if ?c ?e] =>
             destruct (throw_if_outcome c e) as [-> | ->]; simpl; eauto
         | |- context [match ?x with _ => _ end] => destruct x; simpl; eauto
         end.
Qed.

Lemma constructor_unfold json file :
  constructor json file
  = (this ← constructor_fields json file;
     r ← constructor_projects (projects json);
     Normal {| _rushJsonFolder := _rushJsonFolder this;
               _commonFolder := _commonFolder this;
               _commonFolderName := _commonFolderName this;
               _cacheFolder := _cacheFolder this;
               _tmpFolder := _tmpFolder this;
               _tempModulesFolder := _tempModulesFolder this;
               _homeFolder := _homeFolder this;
               _rushLinkJsonFilename := _rushLinkJsonFilename this;
               _npmToolVersion := _npmToolVersion this;
               _npmToolFilename := _npmToolFilename this;
               _projectFolderMinDepth := _projectFolderMinDepth this;
               _projectFolderMaxDepth := _projectFolderMaxDepth this;
               _packageReviewFile := _packageReviewFile this;
               _reviewCategories := _reviewCategories this;
               _projects := r.1;
               _projectsByName := r.2 |}).
Proof.
  unfold constructor. destruct (constructor_fields json file); simpl; [|done..].
  by destruct (constructor_projects (projects json)) as [[??]| |].
Qed.


Lemma constructor_Normal json file config :
  constructor json file = Normal config →
  constructor_projects (projects json) = Normal (_projects config, _projectsByName config).
Proof.
  rewrite constructor_unfold.
  destruct (constructor_fields json file); simpl; [|done..].
  destruct (constructor_projects (projects json)) as [[ps byName]| |]; simpl; [|done..].
  by intros [= <-].
Qed.

Lemma project_of_lookup tempNames (projectJsons : list IRushConfigProjectJson) j :
  (project_of tempNames <$> imap pair projectJsons) !! j
  = (λ json, new_RushConfigProject json (tempNames !! j)) <$> projectJsons !! j.
Proof.
  rewrite list_lookup_fmap, list_lookup_imap. by destruct (projectJsons !! j).
Qed.

Lemma project_of_names tempNames (projectJsons : list IRushConfigProjectJson) :
  rcp_packageName <$> (project_of tempNames <$> imap pair projectJsons)
  = packageName <$> projectJsons.
Proof.
  rewrite <-list_fmap_compose, fmap_imap. apply imap_const.
Qed.

Lemma indexed_is_Some ps byName name :
  indexed ps byName → is_Some (byName !! name) ↔ name ∈ rcp_packageName <$> ps.
Proof.
  intros Hidx. rewrite list_elem_of_fmap. split.
  - intros [i (p & Hp & <-)%Hidx]. exists p. split; [done|].
    apply list_elem_of_lookup. eauto.
  - intros (p & -> & [i Hi]%list_elem_of_lookup). exists i. apply Hidx. eauto.
Qed.

(** What a completed construction has built. *)
Lemma constructor_Normal_inv json file config :
  constructor json file = Normal config →
  ∃ tempNames ps,
    ps = project_of tempNames <$> imap pair (projects json)
    ∧ (∀ r, (r < length (projects json))%nat → is_Some (tempNames !! r))
    ∧ (∀ r1 r2 name,
         tempNames !! r1 = Some name → tempNames !! r2 = Some name → r1 = r2)
    ∧ indexed ps (_projectsByName config)
    ∧ (∀ j, _projects config !! j
            = with_downstream
                (dependents (_projectsByName config) ps (seq 0 (length ps)) j)
              <$> ps !! j).
Proof.
  intros Hprojects%constructor_Normal.
  pose proof (constructor_projects_outcome (projects json)) as Hout.
  destruct (firstDuplicate ∅ (packageName <$> projects json)); [congruence|].
  destruct Hout as (tempNames & ps & byName & Hps & Hnamed & Hinj & Hidx
                    & [(ps' & Hps' & Hlookup & _)|(? & ? & _ & _ & _ & ?)]);
    [|congruence].
  rewrite Hprojects in Hps'. injection Hps' as <- <-.
  exists tempNames, ps. done.
Qed.

(** **** Duplicate package names *)


(** **** Unknown whitelist entries *)


(** **** Dependency cycles *)

(** C3, as amended.  The constructor has no cycle check.  For every manifest
    whose settings pass their checks, whose package names are distinct and
    whose [cyclicDependencyProjects] entries all name projects of the
    manifest, construction succeeds, whatever dependencies the package.json
    files declare: a dependency cycle does not make it fail, whether
    whitelist entries cover it or not. *)
Theorem construction_succeeds_without_cycle_check (json : IRushConfigJson)
    (file : string) (this : RushConfig) :
  constructor_fields json file = Normal this →
  NoDup (packageName <$> projects json) →
  (∀ p c, p ∈ projects json → c ∈ default [] (cyclicDependencyProjects p) →
          c ∈ packageName <$> projects json) →
  ∃ config, constructor json file = Normal config.
Proof.
  intros Hthis Hnodup Hresolved.
  pose proof (constructor_projects_outcome (projects json)) as Hout.
  rewrite (proj2 (firstDuplicate_None ∅ (packageName <$> projects json))) in Hout
    by set_solver.
  destruct Hout as (tempNames & ps & byName & Hps & _ & _ & Hidx
                    & [(ps' & Hps' & _)|(p' & c' & Hp' & Hc' & Hnone & _)]).
  - rewrite constructor_unfold, Hthis, Hps'. simpl. eauto.
  - exfalso.
    apply list_elem_of_lookup in Hp' as [i Hi].
    rewrite Hps, project_of_lookup in Hi.
    destruct (projects json !! i) as [json'|] eqn:Hjson'; [|done].
    injection Hi as <-. simpl in Hc'.
    assert (is_Some (byName !! c')) as [? ?]; [|congruence].
    apply (indexed_is_Some ps byName c' Hidx).
    rewrite Hps, project_of_names.
    apply (Hresolved json'); [|done]. apply list_elem_of_lookup. eauto.
Qed.

(** **** Downstream dependencies *)


(** **** Temp names *)

(** C5. In every graph that the constructor builds, every project has a
    temp name and the temp names of two distinct projects are different. *)
Theorem tempProjectNames_distinct (json : IRushConfigJson) (file : string)
    (config : RushConfig) (i j : nat) (p q : RushConfigProject) :
  constructor json file = Normal config →
  _projects config !! i = Some p →
  _projects config !! j = Some q →
  i ≠ j →
  ∃ name1 name2,
    rcp_tempProjectName p = Some name1
    ∧ rcp_tempProjectName q = Some name2
    ∧ name1 ≠ name2.
Proof.
  intros (tempNames & ps & Hps & Hnamed & Hinj & _ & Hlookup)%constructor_Normal_inv
    Hp Hq Hij.
  assert (∀ P k, _projects config !! k = Some P →
            rcp_tempProjectName P = tempNames !! k
            ∧ is_Some (tempNames !! k)) as Hview.
  { intros P k HP. rewrite Hlookup, Hps, project_of_lookup in HP.
    destruct (projects json !! k) as [json0|] eqn:Hk; [|done].
    injection HP as <-.
    match goal with
    | |- context [with_downstream ?l ?P0] =>
        destruct (with_downstream_fields l P0) as (_ & _ & _ & -> & _)
    end.
    split; [done|]. apply Hnamed. by apply lookup_lt_Some in Hk. }
  destruct (Hview p i Hp) as [Hpname [name1 Hname1]].
  destruct (Hview q j Hq) as [Hqname [name2 Hname2]].
  exists name1, name2. split_and!; [congruence..|].
  intros <-. apply Hij. by apply (Hinj i j name1).
Qed.

(** *** loadFromConfigFile *)

(** C8. For every rush.json whose [rushMinimumVersion] is a valid version
    that the version of the tool is lower than, [loadFromConfigFile] throws
    the version error, and it does so before the schema validator is created
    or invoked: reading rush.json is all it has done. *)
Theorem version_check_before_schema_validation (file : string)
    (json : IRushConfigJson) (minimum : string) :
  loadRushJson file = inr json →
  rushMinimumVersion json = Some minimum →
  minimum ≠ EmptyString →
  semver_valid minimum = true →
  semver_lt rushVersion minimum = true →
  outcome (loadFromConfigFile file) = Throw (RushVersionTooOld rushVersion minimum)
  ∧ trace (loadFromConfigFile file) = [EvLoadJsonFile file]
  ∧ (EvValidate ∉ trace (loadFromConfigFile file))
  ∧ EvNewValidator ∉ trace (loadFromConfigFile file).
Proof.
  intros Hload Hminimum Hnonempty Hvalid Hlt.
  unfold loadFromConfigFile, JsonFile_loadJsonFile. rewrite Hload.
  cbn [mbind traced_bind perform outcome trace]. rewrite Hminimum.
  cbn [Js.if_truthy Js.truthy]. rewrite bool_decide_false by done.
  cbn [negb]. rewrite Hvalid, Hlt.
  cbn [throw lift outcome trace app].
  split_and!; [done..| |]; by intros [=]%list_elem_of_singleton.
Qed.

(** C10. When the [rushMinimumVersion] of rush.json is missing or is not a
    valid version, [loadFromConfigFile] raises no version error, whatever
    the version of the tool is: it goes on to the schema validation, that
    is, it creates the validator, loads the schema and, when the schema has
    loaded, invokes the validator. *)
Theorem malformed_minimum_version_skips_version_check (file : string)
    (json : IRushConfigJson) :
  loadRushJson file = inr json →
  (rushMinimumVersion json = None
   ∨ ∃ v, rushMinimumVersion json = Some v ∧ semver_valid v = false) →
  (∀ v m, outcome (loadFromConfigFile file) ≠ Throw (RushVersionTooOld v m))
  ∧ (∃ rest, trace (loadFromConfigFile file)
             = EvLoadJsonFile file :: EvNewValidator :: EvLoadJsonFile schemaFile :: rest)
  ∧ (∀ rushSchema, loadSchema schemaFile = inr rushSchema →
       ∃ rest, trace (loadFromConfigFile file)
               = EvLoadJsonFile file :: EvNewValidator :: EvLoadJsonFile schemaFile
                 :: EvValidate :: rest).
Proof.
  intros Hload Hmalformed.
  assert (match Js.if_truthy (rushMinimumVersion json) with
          | Some minimumVersion =>
              if semver_valid minimumVersion
              then if semver_lt rushVersion minimumVersion
                   then throw (RushVersionTooOld rushVersion minimumVersion)
                   else mret ()
              else mret ()
          | None => mret ()
          end = (mret () : Traced ())) as Hskip.
  { destruct Hmalformed as [->|(v & -> & Hinvalid)]; [done|].
    cbn [Js.if_truthy]. destruct (Js.truthy (Some v)); [|done].
    by rewrite Hinvalid. }
  unfold loadFromConfigFile, JsonFile_loadJsonFile. rewrite Hload.
  cbn [mbind traced_bind perform outcome trace]. rewrite Hskip.
  fold schemaFile.
  cbn [mret traced_ret mbind traced_bind perform outcome trace app].
  destruct (loadSchema schemaFile) as [text|rushSchema];
    cbn [mbind traced_bind perform outcome trace app].
  { split_and!; [done|by eexists|done]. }
  destruct (validator_validate (delete_schema json) rushSchema) as [detail|];
    cbn [mret traced_ret mbind traced_bind perform throw lift outcome trace app].
  { split_and!; [done|by eexists|by eexists]. }
  split_and!; [|by eexists|by eexists].
  intros v m Hthrow.
  destruct (constructor_fields_outcome (delete_schema json) file) as [[this Hthis]|[e Hthrown]].
  - rewrite constructor_unfold, Hthis in Hthrow. simpl in Hthrow.
    pose proof (constructor_projects_outcome (projects json)) as Hout.
    destruct (firstDuplicate _ _).
    + rewrite Hout in Hthrow. done.
    + destruct Hout as (? & ? & ? & _ & _ & _ & _
                        & [(? & Hout & _)|(? & ? & _ & _ & _ & Hout)]);
        rewrite Hout in Hthrow; done.
  - rewrite constructor_unfold, Hthrown in Hthrow. simpl in Hthrow.
    injection Hthrow as ->.
    revert Hthrown. unfold constructor_fields.
    repeat match goal with
           | |- context [throw_if ?c ?e] =>
               destruct (throw_if_outcome c e) as [-> | ->]; simpl; try done
           | |- context [match ?x with _ => _ end] => destruct x; simpl; try done
           end.
Qed.

(** *** loadFromDefaultLocation *)

Lemma probes_S start n :
  probes start (S n) = EvExistsSync (candidate start 0) :: probes (path_dirname start) n.
Proof.
  unfold probes. cbn [seq fmap list_fmap]. f_equal.
  rewrite <-fmap_S_seq, <-list_fmap_compose. apply list_fmap_ext.
  intros _ k _. unfold candidate, searchFolder, compose.
  by rewrite Nat.iter_succ_r.
Qed.

Lemma loadFromConfigFile_no_probe file :
  Forall (λ ev, ¬ is_probe ev) (trace (loadFromConfigFile file)).
Proof.
  unfold loadFromConfigFile, JsonFile_loadJsonFile.
  repeat match goal with
         | |- context [match ?x with _ => _ end] =>
             destruct x;
             cbn [mret traced_ret mbind traced_bind perform throw lift outcome trace app]
         | |- context [if ?x then _ else _] =>
             destruct x;
             cbn [mret traced_ret mbind traced_bind perform throw lift outcome trace app]
         end;
    repeat constructor; by intros [].
Qed.

(** The loop probes folder after folder, upwards from the one it starts in,
    and at most as many as it has iterations left. *)
Lemma for_parentFolders_probes remaining i start :
  ∃ n rest,
    (n ≤ remaining)%nat
    ∧ trace (for_parentFolders remaining i start) = (probes start n ++ rest)%list
    ∧ Forall (λ ev, ¬ is_probe ev) rest.
Proof.
  revert i start. induction remaining as [|remaining IH]; intros i start.
  { exists 0, []. split_and!; [lia|done|constructor]. }
  cbn [for_parentFolders mbind traced_bind perform outcome trace].
  destruct (fs_existsSync (path_join [start; "rush.json"])).
  - exists 1. eexists. split_and!; [lia|reflexivity|].
    destruct (0 <? i)%nat;
      cbn [mret traced_ret mbind traced_bind perform outcome trace app];
      repeat (apply Forall_cons; split; [by intros []|]);
      apply loadFromConfigFile_no_probe.
  - case_bool_decide.
    + exists 1, []. split_and!; [lia|done|constructor].
    + destruct (IH (S i) (path_dirname start)) as (n & rest & Hn & -> & Hrest).
      exists (S n), rest. split_and!; [lia| |done].
      by rewrite probes_S.
Qed.

(** When none of the folders that the loop can reach holds a rush.json, the
    loop is left for the [throw] after it, having done nothing but probe. *)
Lemma for_parentFolders_not_found remaining i start :
  (∀ k, (k < remaining)%nat → fs_existsSync (candidate start k) = false) →
  outcome (for_parentFolders remaining i start) = Throw RushJsonNotFound
  ∧ ∃ n, (n ≤ remaining)%nat
         ∧ trace (for_parentFolders remaining i start) = probes start n.
Proof.
  revert i start. induction remaining as [|remaining IH]; intros i start Hnone.
  { split; [done|]. exists 0. split; [lia|done]. }
  cbn [for_parentFolders mbind traced_bind perform outcome trace].
  pose proof (Hnone 0 ltac:(lia)) as Hhere.
  unfold candidate, searchFolder in Hhere. simpl in Hhere. rewrite Hhere.
  case_bool_decide.
  - split; [done|]. exists 1. split; [lia|done].
  - destruct (IH (S i) (path_dirname start)) as (Hthrow & n & Hn & Htrace).
    { intros k Hk. specialize (Hnone (S k) ltac:(lia)).
      unfold candidate, searchFolder in *. by rewrite Nat.iter_succ_r in Hnone. }
    rewrite Hthrow, Htrace. split; [done|].
    exists (S n). split; [lia|]. by rewrite probes_S.
Qed.

(** C9. [loadFromDefaultLocation] looks for rush.json in the working
    directory first and then in one parent folder after the other; it probes
    at most 10 folders; and when none of the folders it can reach that way
    holds a rush.json, it throws 'Unable to find rush.json configuration
    file', having probed at most 10 folders and done nothing else. *)
Theorem default_location_search_bounded :
  (∃ n rest,
     (1 ≤ n ≤ 10)%nat
     ∧ trace loadFromDefaultLocation = (probes process_cwd n ++ rest)%list
     ∧ Forall (λ ev, ¬ is_probe ev) rest)
  ∧ ((∀ k, (k < 10)%nat → fs_existsSync (candidate process_cwd k) = false) →
     outcome loadFromDefaultLocation = Throw RushJsonNotFound
     ∧ message RushJsonNotFound = "Unable to find rush.json configuration file"
     ∧ ∃ n, (1 ≤ n ≤ 10)%nat
            ∧ trace loadFromDefaultLocation = probes process_cwd n).
Proof.
  unfold loadFromDefaultLocation. split.
  - destruct (for_parentFolders_probes 10 0 process_cwd) as (n & rest & Hn & Htrace & Hrest).
    exists n, rest. split_and!; [|lia|done..].
    destruct n; [|lia]. exfalso.
    revert Htrace Hrest. cbn [for_parentFolders mbind traced_bind perform outcome trace].
    destruct (fs_existsSync _); [|case_bool_decide];
      cbn [trace app probes seq fmap list_fmap];
      intros <- Hrest; apply Forall_cons in Hrest as [Hprobe _]; by apply Hprobe.
  - intros Hnone.
    destruct (for_parentFolders_not_found 10 0 process_cwd Hnone) as (Hthrow & n & Hn & Htrace).
    split_and!; [done..|]. exists n. split; [|done].
    split; [|done]. destruct n; [|lia]. exfalso.
    revert Htrace. cbn [for_parentFolders mbind traced_bind perform outcome trace].
    destruct (fs_existsSync _); [|case_bool_decide]; by cbn [trace app].
Qed.

End Properties.

(** ** Further properties of the class *)

Section Further.
Context `{Host}.

(** *** The names that the generator gives *)

(** The loop touches the entries of the [Map] of the objects it visits, and
    no other entry. *)
Lemma for_sortedProjectJsons_frame (l : list ProjectRef) used m m' r :
  for_sortedProjectJsons l used m = Some m' → r ∉ l.*1 → m' !! r = m !! r.
Proof.
  revert used m. induction l as [|[r0 json0] l IH]; intros used m;
    cbn [for_sortedProjectJsons fst snd].
  - by intros [= <-].
  - destruct (while_used_fuel used (parseScopedPackgeName_name (packageName json0)))
      as (name & -> & _). simpl.
    intros Hrest Hr. apply not_elem_of_cons in Hr as [Hne Hr].
    rewrite (IH _ _ Hrest Hr). by rewrite lookup_insert_ne.
Qed.

(** The name of the [i]-th object is what the [while] loop finds against a
    set of used names that holds the names given before, and nothing else. *)
Lemma for_sortedProjectJsons_lookup (l : list ProjectRef) used m m' :
  NoDup l.*1 →
  for_sortedProjectJsons l used m = Some m' →
  ∀ i r json, l !! i = Some (r, json) →
    ∃ used_i : gset string,
      (size used_i ≤ size used + i)%nat
      ∧ (∀ n, n ∈ used_i →
           n ∈ used ∨ ∃ j r' json', (j < i)%nat ∧ l !! j = Some (r', json')
                                    ∧ m' !! r' = Some n)
      ∧ m' !! r
        = while_used (S (size used_i)) used_i
            (parseScopedPackgeName_name (packageName json)) 0
            ("rush-" +:+ parseScopedPackgeName_name (packageName json)).
Proof.
  revert used m. induction l as [|[r0 json0] l IH]; intros used m Hnodup;
    cbn [for_sortedProjectJsons fst snd]; [by intros _ i ? ? ?|].
  apply NoDup_cons in Hnodup as [Hr0 Hnodup]. simpl in Hr0.
  destruct (while_used_fuel used (parseScopedPackgeName_name (packageName json0)))
    as (name0 & Hname0 & Hfree). rewrite Hname0. simpl.
  intros Hrest [|i] r json Hi.
  - injection Hi as -> ->. exists used. split_and!; [lia|by left|].
    rewrite (for_sortedProjectJsons_frame _ _ _ _ _ Hrest Hr0).
    by rewrite lookup_insert_eq.
  - destruct (IH _ _ Hnodup Hrest i r json Hi) as (used_i & Hsize & Hfrom & Hlookup).
    exists used_i. split_and!; [| |done].
    + rewrite size_union, size_singleton in Hsize by set_solver. lia.
    + intros n [[->%elem_of_singleton|?]%elem_of_union|(j & r' & json' & ? & ? & ?)]%Hfrom.
      * right. exists 0, r0, json0. split_and!; [lia|done|].
        rewrite (for_sortedProjectJsons_frame _ _ _ _ _ Hrest Hr0).
        by rewrite lookup_insert_eq.
      * by left.
      * right. exists (S j), r', json'. split_and!; [lia|done..].
Qed.

(** The loop finds the start name or a suffix that is at most the number of
    used names. *)
Lemma while_used_bounded (used : gset string) u :
  ∃ name,
    while_used (S (size used)) used u 0 ("rush-" +:+ u) = Some name
    ∧ name ∉ used
    ∧ (name = "rush-" +:+ u
       ∨ ("rush-" +:+ u ∈ used
          ∧ ∃ k, (1 ≤ k ≤ size used)%nat ∧ name = suffixed u k
                 ∧ ∀ k', (1 ≤ k' < k)%nat → suffixed u k' ∈ used)).
Proof.
  destruct (while_used_fuel used u) as (name & Hname & Hfree).
  exists name. split_and!; [done..|].
  destruct (while_used_lowest _ _ _ _ _ _ Hname)
    as [[-> _]|(Hbase & k & Hk & -> & _ & Hbelow)]; [by left|right].
  split; [done|]. exists k. split_and!; [lia| |done|intros; apply Hbelow; lia].
  assert (size ({["rush-" +:+ u]} ∪ list_to_set (suffixed u <$> seq 1 (k - 1)) : gset string)
          ≤ size used)%nat as Hle.
  { apply subseteq_size. intros n [->%elem_of_singleton|Hn]%elem_of_union; [done|].
    apply elem_of_list_to_set, list_elem_of_fmap in Hn as (k' & -> & Hk'%elem_of_seq).
    apply Hbelow. lia. }
  rewrite size_union, size_singleton, size_list_to_set, length_fmap, length_seq in Hle.
  - lia.
  - apply NoDup_fmap_2; [intros ? ? ?; by eapply suffixed_inj|apply NoDup_seq].
  - intros n ->%elem_of_singleton
      (k' & Hbad & _)%elem_of_list_to_set%list_elem_of_fmap.
    symmetry in Hbad. by apply suffixed_not_base in Hbad.
Qed.

(** X1. [_generateTempNamesForProjects] returns for every array (the search
    for a free name always ends); it leaves the array in the order it had;
    the [Map] it returns has an entry for every object of the array and for
    nothing else; and no two entries hold the same name. *)
Theorem generateTempNames_total (projectJsons : list ProjectRef) :
  ∃ tempNames,
    _generateTempNamesForProjects projectJsons = Some (projectJsons, tempNames)
    ∧ (∀ r, is_Some (tempNames !! r) ↔ r ∈ projectJsons.*1)
    ∧ (∀ r1 r2 name,
         tempNames !! r1 = Some name → tempNames !! r2 = Some name → r1 = r2).
Proof.
  destruct (generateTempNames_returns projectJsons) as (tempNames & Hgen & Hnamed & Hinj).
  exists tempNames. split_and!; [done| |done].
  intros r. split; [|apply Hnamed].
  intros Hsome. destruct (decide (r ∈ projectJsons.*1)) as [|Hnot]; [done|].
  unfold _generateTempNamesForProjects in Hgen. rewrite sort_compareProjects in Hgen.
  destruct (for_sortedProjectJsons projectJsons ∅ ∅) as [m|] eqn:Hloop; [|done].
  injection Hgen as <-.
  rewrite (for_sortedProjectJsons_frame _ _ _ _ _ Hloop Hnot), lookup_empty in Hsome.
  by destruct Hsome.
Qed.

(** X2. The search for a free name, from the counter 0 and against any set
    of used names, ends with a name that is not used: the name
    ["rush-" + unscopedName] itself when that is free, and otherwise that name
    with the suffix [-k] for the lowest [k >= 1] whose suffixed name is free;
    [k] is at most the number of used names. *)
Theorem free_name_search (usedTempNames : gset string) (unscopedName : string) :
  ∃ name,
    while_used (S (size usedTempNames)) usedTempNames unscopedName 0
      ("rush-" +:+ unscopedName) = Some name
    ∧ name ∉ usedTempNames
    ∧ (("rush-" +:+ unscopedName ∉ usedTempNames ∧ name = "rush-" +:+ unscopedName)
       ∨ ("rush-" +:+ unscopedName ∈ usedTempNames
          ∧ ∃ k, (1 ≤ k ≤ size usedTempNames)%nat
                 ∧ name = "rush-" +:+ unscopedName +:+ "-" +:+ pretty k
                 ∧ ∀ k', (1 ≤ k' < k)%nat →
                         "rush-" +:+ unscopedName +:+ "-" +:+ pretty k' ∈ usedTempNames)).
Proof.
  destruct (while_used_bounded usedTempNames unscopedName)
    as (name & Hname & Hfree & [->|Hsuffix]).
  - exists ("rush-" +:+ unscopedName). split_and!; [done..|]. by left.
  - exists name. split_and!; [done..|]. by right.
Qed.

(** *** What a completed construction has built *)

Lemma refs_of_manifest (projectJsons : list IRushConfigProjectJson) :
  (imap pair projectJsons).*1 = seq 0 (length projectJsons).
Proof.
  rewrite fmap_imap.
  rewrite <-(list_fmap_id (seq 0 (length projectJsons))).
  exact (imap_seq_0 projectJsons id).
Qed.

Lemma with_downstream_more_fields l p :
  rcp_projectFolder (with_downstream l p) = rcp_projectFolder p
  ∧ rcp_reviewCategory (with_downstream l p) = rcp_reviewCategory p.
Proof.
  revert p. induction l as [|name l IH]; intros p; simpl; [done|].
  by destruct (IH (push_downstream name p)) as [-> ->].
Qed.

Lemma constructor_projects_Normal (projectJsons : list IRushConfigProjectJson)
    ps' byName :
  constructor_projects projectJsons = Normal (ps', byName) →
  ∃ tempNames ps,
    _generateTempNamesForProjects (imap pair projectJsons)
      = Some (imap pair projectJsons, tempNames)
    ∧ ps = project_of tempNames <$> imap pair projectJsons
    ∧ indexed ps byName
    ∧ (∀ j, ps' !! j
            = with_downstream (dependents byName ps (seq 0 (length ps)) j) <$> ps !! j)
    ∧ (∀ p c, p ∈ ps → c ∈ rcp_cyclicDependencyProjects p → is_Some (byName !! c)).
Proof.
  unfold constructor_projects.
  destruct (generateTempNames_returns (imap pair projectJsons))
    as (tempNames & Hgen & _). rewrite Hgen.
  pose proof (for_projectJsons_spec (imap pair projectJsons) tempNames [] ∅
                indexed_empty) as Hfirst.
  destruct (firstDuplicate _ _); [by rewrite Hfirst|].
  destruct Hfirst as (byName' & Hfirst & Hidx). simpl in Hfirst, Hidx.
  rewrite Hfirst. simpl.
  set (ps := project_of tempNames <$> imap pair projectJsons) in *.
  destruct (for_projects_outcome (seq 0 (length ps)) byName' ps ps (extends_refl ps))
    as [(ps'' & Hps'' & Hall)|(i & p & c & _ & _ & _ & _ & Hthrow)].
  { intros i Hi%elem_of_seq. lia. }
  2: { by rewrite Hthrow. }
  rewrite Hps''. simpl. intros [= <- <-].
  exists tempNames, ps. split_and!; [done..| |].
  - apply for_projects_Normal; [|done]. intros i Hi%elem_of_seq. lia.
  - intros p c (i & Hi)%list_elem_of_lookup Hc.
    apply (Hall i p c); [|done..].
    apply elem_of_seq. apply lookup_lt_Some in Hi. lia.
Qed.

(** The project object at the index [i] of a constructed configuration, seen
    from the manifest. *)
Lemma constructed_project json file config :
  constructor json file = Normal config →
  ∃ tempNames,
    _generateTempNamesForProjects (imap pair (projects json))
      = Some (imap pair (projects json), tempNames)
    ∧ length (_projects config) = length (projects json)
    ∧ ∀ i p, _projects config !! i = Some p →
        ∃ entry, projects json !! i = Some entry
          ∧ rcp_packageName p = packageName entry
          ∧ rcp_cyclicDependencyProjects p = default [] (cyclicDependencyProjects entry)
          ∧ rcp_packageJson p = readPackageJson (projectFolder entry)
          ∧ rcp_tempProjectName p = tempNames !! i
          ∧ _projectsByName config !! packageName entry = Some i
          ∧ (∀ c, c ∈ default [] (cyclicDependencyProjects entry) →
                  is_Some (_projectsByName config !! c)).
Proof.
  intros (tempNames & ps & Hgen & Hps & Hidx & Hlookup & Hall)
    %constructor_Normal%constructor_projects_Normal.
  exists tempNames. split_and!; [done| |].
  - apply Nat.le_antisymm; apply Nat.nlt_ge; intros Hlt.
    + apply lookup_lt_is_Some in Hlt as [p Hp].
      rewrite Hlookup, Hps, project_of_lookup in Hp.
      rewrite lookup_ge_None_2 in Hp by lia. done.
    + apply lookup_lt_is_Some in Hlt as [entry Hentry].
      pose proof (Hlookup (length (_projects config))) as Hnone.
      rewrite Hps, project_of_lookup, Hentry in Hnone.
      rewrite lookup_ge_None_2 in Hnone by lia. done.
  - intros i p Hp. rewrite Hlookup in Hp.
    destruct (ps !! i) as [p0|] eqn:Hp0; [|done]. injection Hp as <-.
    pose proof Hp0 as Hentry. rewrite Hps, project_of_lookup in Hentry.
    destruct (projects json !! i) as [entry|]; [|done]. injection Hentry as <-.
    exists entry. split; [done|].
    match goal with
    | |- context [with_downstream ?l ?P0] =>
        destruct (with_downstream_fields l P0) as (-> & -> & -> & -> & _)
    end.
    simpl. do 4 (split; [done|]). split.
    + apply Hidx. eexists. split; [exact Hp0|done].
    + intros c Hc. eapply Hall; [apply list_elem_of_lookup; eauto|done].
Qed.

Lemma projects_names_of json file config :
  constructor json file = Normal config →
  rcp_packageName <$> _projects config = packageName <$> projects json.
Proof.
  intros (tempNames & _ & Hlength & Hview)%constructed_project.
  apply list_eq. intros i. rewrite !list_lookup_fmap.
  destruct (_projects config !! i) as [p|] eqn:Hp; simpl.
  - destruct (Hview i p Hp) as (entry & -> & -> & _). done.
  - apply lookup_ge_None in Hp. rewrite lookup_ge_None_2; [done|lia].
Qed.

(** X3. The projects of a constructed configuration are those of the
    manifest, one per entry and in the order of the manifest. *)
Theorem projects_follow_manifest (json : IRushConfigJson) (file : string)
    (config : RushConfig) :
  constructor json file = Normal config →
  rcp_packageName <$> _projects config = packageName <$> projects json
  ∧ length (_projects config) = length (projects json).
Proof.
  intros Hconfig. split; [exact (projects_names_of _ _ _ Hconfig)|].
  by destruct (constructed_project _ _ _ Hconfig) as (_ & _ & ? & _).
Qed.

(** X4. In a constructed configuration, [getProjectByName] finds every
    project under its package name, finds nothing under any other name, and
    what it finds is a project of the configuration with the name that was
    asked for. *)
Theorem getProjectByName_finds_projects (json : IRushConfigJson) (file : string)
    (config : RushConfig) :
  constructor json file = Normal config →
  (∀ p, p ∈ _projects config → getProjectByName config (rcp_packageName p) = Some p)
  ∧ (∀ name, name ∉ packageName <$> projects json →
             getProjectByName config name = None)
  ∧ (∀ name p, getProjectByName config name = Some p →
               p ∈ _projects config ∧ rcp_packageName p = name).
Proof.
  intros Hconfig.
  pose proof (projects_names_of _ _ _ Hconfig) as Hnames.
  destruct (constructed_project _ _ _ Hconfig) as (tempNames & _ & _ & Hview).
  destruct (constructor_projects_Normal _ _ _ (constructor_Normal _ _ _ Hconfig))
    as (? & ps & _ & Hps & Hidx & Hlookup & _).
  assert (∀ name i, _projectsByName config !! name = Some i →
            ∃ p, _projects config !! i = Some p ∧ rcp_packageName p = name) as Hback.
  { intros name i (p0 & Hp0 & <-)%Hidx.
    exists (with_downstream
              (dependents (_projectsByName config) ps (seq 0 (length ps)) i) p0).
    rewrite Hlookup, Hp0. split; [done|].
    by destruct (with_downstream_fields
                   (dependents (_projectsByName config) ps (seq 0 (length ps)) i) p0)
      as (-> & _). }
  unfold getProjectByName. split_and!.
  - intros p [i Hp]%list_elem_of_lookup.
    destruct (Hview i p Hp) as (entry & _ & -> & _ & _ & _ & -> & _). done.
  - intros name Hname.
    destruct (_projectsByName config !! name) as [i|] eqn:Hi; [|done].
    destruct (Hback name i Hi) as (p & Hp & <-). exfalso. apply Hname.
    rewrite <-Hnames. apply list_elem_of_fmap. exists p. split; [done|].
    apply list_elem_of_lookup; eauto.
  - intros name p Hfound.
    destruct (_projectsByName config !! name) as [i|] eqn:Hi; [|done].
    simpl in Hfound. destruct (Hback name i Hi) as (p' & Hp' & <-).
    assert (p' = p) as -> by congruence.
    split; [|done]. apply list_elem_of_lookup; eauto.
Qed.

(** *** The temp names of a constructed configuration *)

Lemma generated_name (l : list ProjectRef) tempNames i r json :
  NoDup l.*1 →
  _generateTempNamesForProjects l = Some (l, tempNames) →
  l !! i = Some (r, json) →
  ∃ used_i : gset string,
    (size used_i ≤ i)%nat
    ∧ (∀ n, n ∈ used_i →
         ∃ j r' json', (j < i)%nat ∧ l !! j = Some (r', json') ∧ tempNames !! r' = Some n)
    ∧ tempNames !! r
      = while_used (S (size used_i)) used_i
          (parseScopedPackgeName_name (packageName json)) 0
          ("rush-" +:+ parseScopedPackgeName_name (packageName json)).
Proof.
  intros Hnodup Hgen Hi.
  unfold _generateTempNamesForProjects in Hgen. rewrite sort_compareProjects in Hgen.
  destruct (for_sortedProjectJsons l ∅ ∅) as [m|] eqn:Hloop; [|done].
  injection Hgen as <-.
  destruct (for_sortedProjectJsons_lookup l ∅ ∅ m Hnodup Hloop i r json Hi)
    as (used_i & Hsize & Hfrom & Hlookup).
  exists used_i. rewrite size_empty in Hsize. split_and!; [lia| |done].
  intros n [Hn|?]%Hfrom; [|done]. by apply not_elem_of_empty in Hn.
Qed.

Lemma generated_names_plain (l : list ProjectRef) tempNames :
  NoDup l.*1 →
  _generateTempNamesForProjects l = Some (l, tempNames) →
  NoDup ((λ r : ProjectRef, parseScopedPackgeName_name (packageName r.2)) <$> l) →
  ∀ i r json, l !! i = Some (r, json) →
    tempNames !! r = Some ("rush-" +:+ parseScopedPackgeName_name (packageName json)).
Proof.
  intros Hrefs Hgen Hnodup i.
  induction (lt_wf i) as [i _ IH]. intros r json Hi.
  destruct (generated_name l tempNames i r json Hrefs Hgen Hi)
    as (used_i & _ & Hfrom & ->).
  cbn [while_used]. rewrite decide_False; [done|].
  intros (j & r' & json' & Hj & Hl & Hn)%Hfrom.
  rewrite (IH j Hj r' json' Hl) in Hn. injection Hn as Hn.
  apply String.app_inj in Hn.
  assert (j = i) as ->; [|lia].
  apply (NoDup_lookup _ j i (parseScopedPackgeName_name (packageName json)) Hnodup).
  - rewrite list_lookup_fmap. apply fmap_Some. eexists. split; [exact Hl|done].
  - rewrite list_lookup_fmap. apply fmap_Some. eexists. split; [exact Hi|done].
Qed.

(** X5. In a constructed configuration the temp name of the [i]-th project
    is ["rush-" + unscopedName], or that name with a suffix [-k] where
    [1 <= k <= i]: a suffix is never larger than the number of projects that
    come before in the manifest, and the first project always gets the name
    without a suffix. *)
Theorem tempProjectName_shape (json : IRushConfigJson) (file : string)
    (config : RushConfig) (i : nat) (p : RushConfigProject) :
  constructor json file = Normal config →
  _projects config !! i = Some p →
  rcp_tempProjectName p
    = Some ("rush-" +:+ parseScopedPackgeName_name (rcp_packageName p))
  ∨ ∃ k, (1 ≤ k ≤ i)%nat
         ∧ rcp_tempProjectName p
           = Some ("rush-" +:+ parseScopedPackgeName_name (rcp_packageName p)
                   +:+ "-" +:+ pretty k).
Proof.
  intros (tempNames & Hgen & _ & Hview)%constructed_project Hp.
  destruct (Hview i p Hp) as (entry & Hentry & -> & _ & _ & -> & _).
  destruct (generated_name (imap pair (projects json)) tempNames i i entry)
    as (used_i & Hsize & _ & ->).
  { rewrite refs_of_manifest. apply NoDup_seq. }
  { done. }
  { by rewrite list_lookup_imap, Hentry. }
  destruct (while_used_bounded used_i (parseScopedPackgeName_name (packageName entry)))
    as (name & -> & _ & [->|(_ & k & Hk & -> & _)]); [by left|right].
  exists k. split; [lia|done].
Qed.

(** X6. When no two packages of the manifest have the same unscoped name,
    every project of the constructed configuration gets the temp name
    ["rush-" + unscopedName], without a suffix. *)
Theorem distinct_unscoped_names_need_no_suffix (json : IRushConfigJson) (file : string)
    (config : RushConfig) (p : RushConfigProject) :
  constructor json file = Normal config →
  NoDup ((λ entry, parseScopedPackgeName_name (packageName entry)) <$> projects json) →
  p ∈ _projects config →
  rcp_tempProjectName p
  = Some ("rush-" +:+ parseScopedPackgeName_name (rcp_packageName p)).
Proof.
  intros (tempNames & Hgen & _ & Hview)%constructed_project Hnodup
    [i Hp]%list_elem_of_lookup.
  destruct (Hview i p Hp) as (entry & Hentry & -> & _ & _ & -> & _).
  apply (generated_names_plain (imap pair (projects json)) tempNames) with (i := i);
    [| |..].
  - rewrite refs_of_manifest. apply NoDup_seq.
  - done.
  - replace ((λ r : ProjectRef, parseScopedPackgeName_name (packageName r.2))
               <$> imap pair (projects json))
      with ((λ entry, parseScopedPackgeName_name (packageName entry)) <$> projects json);
      [done|].
    rewrite fmap_imap. symmetry.
    exact (imap_const (λ entry, parseScopedPackgeName_name (packageName entry))
             (projects json)).
  - by rewrite list_lookup_imap, Hentry.
Qed.

(** *** The graph of a constructed configuration *)

Lemma projectsByName_refers json file config name i :
  constructor json file = Normal config →
  _projectsByName config !! name = Some i →
  ∃ p, _projects config !! i = Some p ∧ rcp_packageName p = name.
Proof.
  intros (? & ps & _ & Hps & Hidx & Hlookup & _)
    %constructor_Normal%constructor_projects_Normal (p0 & Hp0 & <-)%Hidx.
  exists (with_downstream
            (dependents (_projectsByName config) ps (seq 0 (length ps)) i) p0).
  rewrite Hlookup, Hp0. split; [done|].
  by destruct (with_downstream_fields
                 (dependents (_projectsByName config) ps (seq 0 (length ps)) i) p0)
    as (-> & _).
Qed.

(** X7. A constructed configuration keeps the invariants of the graph: the
    package names of its projects are pairwise distinct, and every name in
    the [cyclicDependencyProjects] of a project is the name of a project
    that [getProjectByName] finds. *)
Theorem constructed_graph_invariants (json : IRushConfigJson) (file : string)
    (config : RushConfig) :
  constructor json file = Normal config →
  NoDup (rcp_packageName <$> _projects config)
  ∧ ∀ p c, p ∈ _projects config → c ∈ rcp_cyclicDependencyProjects p →
      ∃ q, getProjectByName config c = Some q ∧ rcp_packageName q = c.
Proof.
  intros Hconfig. split.
  - rewrite (projects_names_of _ _ _ Hconfig).
    destruct (constructor_projects_Normal _ _ _ (constructor_Normal _ _ _ Hconfig))
      as (tempNames & ps & _ & Hps & Hidx & _).
    rewrite <-(project_of_names tempNames), <-Hps.
    by eapply indexed_names_NoDup.
  - intros p c [i Hp]%list_elem_of_lookup Hc.
    destruct (constructed_project _ _ _ Hconfig) as (tempNames & _ & _ & Hview).
    destruct (Hview i p Hp) as (entry & _ & _ & Hcyclic & _ & _ & _ & Hall).
    rewrite Hcyclic in Hc. destruct (Hall c Hc) as [j Hj].
    destruct (projectsByName_refers _ _ _ _ _ Hconfig Hj) as (q & Hq & Hname).
    exists q. unfold getProjectByName. rewrite Hj. done.
Qed.

Lemma bind_seq_lookup {A B} (l : list A) (f : A → list B) :
  seq 0 (length l) ≫= (λ i, match l !! i with Some x => f x | None => [] end)
  = l ≫= f.
Proof.
  induction l as [|x l IH]; [done|].
  cbn [length]. rewrite <-cons_seq, <-fmap_S_seq, !bind_cons, list_fmap_bind.
  by rewrite <-IH.
Qed.

Lemma bind_ext_elem_of {A B} (l : list A) (f g : A → list B) :
  (∀ x, x ∈ l → f x = g x) → l ≫= f = l ≫= g.
Proof.
  induction l as [|x l IH]; intros Hext; [done|].
  rewrite !bind_cons, Hext, IH; [done| |left].
  intros y Hy. apply Hext. by right.
Qed.

Lemma bind_single_key (keys : list string) (P : string → Prop)
    `{∀ k, Decision (P k)} (x y : string) :
  NoDup keys → (∀ k, P k ↔ k = x) →
  keys ≫= (λ k, if decide (P k) then [y] else [])
  = if decide (x ∈ keys) then [y] else [].
Proof.
  intros Hnodup HP. induction keys as [|k keys IH]; [done|].
  apply NoDup_cons in Hnodup as [Hk Hnodup].
  rewrite bind_cons, (IH Hnodup).
  destruct (decide (P k)) as [->%HP|Hne].
  - rewrite (decide_False (P := x ∈ keys)) by done.
    rewrite (decide_True (P := x ∈ x :: keys)) by left. done.
  - destruct (decide (x ∈ keys)) as [Hin|Hnot].
    + rewrite (decide_True (P := x ∈ k :: keys)) by (by right). done.
    + rewrite (decide_False (P := x ∈ k :: keys)); [done|].
      intros [->|?]%elem_of_cons; [|done]. by apply Hne, HP.
Qed.

Lemma bind_filter {A} (l : list A) (P : A → Prop) `{∀ a, Decision (P a)}
    (name : A → string) :
  l ≫= (λ a, if decide (P a) then [name a] else []) = name <$> filter P l.
Proof.
  induction l as [|a l IH]; [done|].
  rewrite bind_cons, filter_cons, IH. by destruct (decide (P a)).
Qed.

Lemma bind_Forall2 {A A' B} (R : A → A' → Prop) (f : A → list B) (g : A' → list B)
    (l : list A) (l' : list A') :
  Forall2 R l l' → (∀ x y, R x y → f x = g y) → l ≫= f = l' ≫= g.
Proof.
  intros Hrel Hfg. induction Hrel as [|x y l l' Hxy _ IH]; [done|].
  by rewrite !bind_cons, (Hfg x y Hxy), IH.
Qed.

(** X8. In a constructed configuration the [downstreamDependencyProjects] of
    a project B are exactly the package names of the projects whose
    package.json lists B among its ["dependencies"], in the order of the
    manifest, each once (the keys of an object are distinct).  A dependency
    on a package that is not a project of the manifest adds nothing. *)
Theorem downstreamDependencyProjects_exact (json : IRushConfigJson) (file : string)
    (config : RushConfig) (B : RushConfigProject) :
  constructor json file = Normal config →
  (∀ A, A ∈ _projects config → NoDup (dependencyNames (rcp_packageJson A))) →
  B ∈ _projects config →
  rcp_downstreamDependencyProjects B
  = rcp_packageName
      <$> filter (λ A, rcp_packageName B ∈ dependencyNames (rcp_packageJson A))
                 (_projects config).
Proof.
  intros Hconfig Hkeys [b HB]%list_elem_of_lookup.
  destruct (constructor_projects_Normal _ _ _ (constructor_Normal _ _ _ Hconfig))
    as (tempNames & ps & _ & Hps & Hidx & Hlookup & _).
  pose proof HB as HB0. rewrite Hlookup in HB0.
  destruct (ps !! b) as [B0|] eqn:Hb; [|done]. injection HB0 as HB0.
  assert (Forall2 (λ p p0, p ∈ _projects config ∧ ∃ l, p = with_downstream l p0)
            (_projects config) ps) as Hrel.
  { apply Forall2_lookup. intros i. pose proof (Hlookup i) as Hi.
    destruct (ps !! i) as [p0|]; rewrite Hi; constructor.
    split; [|by eexists]. apply list_elem_of_lookup. by exists i. }
  assert (rcp_downstreamDependencyProjects B0 = []) as Hnew.
  { rewrite Hps, project_of_lookup in Hb.
    destruct (projects json !! b); [|done]. by injection Hb as <-. }
  assert (rcp_packageName B = rcp_packageName B0) as HnameB.
  { rewrite <-HB0.
    by destruct (with_downstream_fields
                   (dependents (_projectsByName config) ps (seq 0 (length ps)) b) B0)
      as (-> & _). }
  rewrite <-bind_filter. rewrite <-HB0 at 1.
  destruct (with_downstream_fields
              (dependents (_projectsByName config) ps (seq 0 (length ps)) b) B0)
    as (_ & _ & _ & _ & ->).
  rewrite Hnew, app_nil_l. unfold dependents. rewrite bind_seq_lookup.
  symmetry. apply (bind_Forall2 _ _ _ _ _ Hrel).
  intros A A0 [HA [names ->]]. unfold pushes_to.
  destruct (with_downstream_fields names A0) as (HnameA & _ & HjsonA & _).
  rewrite HnameA, HjsonA.
  assert (NoDup (dependencyNames (rcp_packageJson A0))) as Hnodup.
  { rewrite <-HjsonA. by apply Hkeys. }
  symmetry. apply bind_single_key; [done|].
  intros k. rewrite HnameB. split.
  - intros (B0' & HB0' & <-)%Hidx. congruence.
  - intros ->. apply Hidx. eauto.
Qed.

(** *** Which duplicate the constructor reports *)

Lemma firstDuplicate_Some_iff seen names name :
  firstDuplicate seen names = Some name ↔
  ∃ l, names !! l = Some name
       ∧ (name ∈ seen ∨ name ∈ take l names)
       ∧ NoDup (take l names)
       ∧ ∀ x, x ∈ take l names → x ∉ seen.
Proof.
  revert seen. induction names as [|n names IH]; intros seen; simpl.
  { split; [done|]. by intros (l & Hl & _). }
  case_decide as Hn.
  - split.
    + intros [= ->]. exists 0. split_and!; [done|by left|constructor|].
      by intros x ?%elem_of_nil.
    + intros ([|l] & Hl & _ & _ & Hfresh); [by injection Hl as ->|].
      destruct (Hfresh n); [left|done].
  - rewrite IH. split.
    + intros (l & Hl & Hin & Hnodup & Hfresh). exists (S l). simpl.
      split_and!; [done| | |].
      * destruct Hin as [[->%elem_of_singleton|?]%elem_of_union|?];
          [right; left|by left|right; by right].
      * apply NoDup_cons. split; [|done]. intros Hbad%Hfresh. set_solver.
      * intros x [->|Hx%Hfresh]%elem_of_cons; [done|set_solver].
    + intros ([|l] & Hl & Hin & Hnodup & Hfresh); simpl in *.
      { injection Hl as ->. destruct Hin as [?|Hin]; [done|].
        by apply elem_of_nil in Hin. }
      apply NoDup_cons in Hnodup as [Hfirst Hnodup].
      exists l. split_and!; [done| |done|].
      * destruct Hin as [?|[->|?]%elem_of_cons]; [left|left|by right]; set_solver.
      * intros x Hx. apply not_elem_of_union. split; [|apply Hfresh; by right].
        intros ->%elem_of_singleton. done.
Qed.

(** X9. When the checks of the settings pass, the constructor throws the
    duplicate-name error for [name] exactly when [name] is the first package
    name of the manifest that repeats an earlier one: it stands at a
    position [l], it also stands before [l], and the names before [l] are
    pairwise distinct. *)
Theorem duplicate_error_names_first_repeat (json : IRushConfigJson) (file : string)
    (this : RushConfig) (name : string) :
  constructor_fields json file = Normal this →
  constructor json file = Throw (DuplicateProjectName name) ↔
  ∃ l, (packageName <$> projects json) !! l = Some name
       ∧ name ∈ take l (packageName <$> projects json)
       ∧ NoDup (take l (packageName <$> projects json)).
Proof.
  intros Hthis.
  pose proof (constructor_projects_outcome (projects json)) as Hout.
  pose proof (firstDuplicate_Some_iff ∅ (packageName <$> projects json) name) as Hiff.
  rewrite constructor_unfold, Hthis. simpl.
  destruct (firstDuplicate ∅ (packageName <$> projects json)) as [name'|].
  - rewrite Hout. simpl. split.
    + intros [= ->]. destruct (proj1 Hiff eq_refl) as (l & Hl & [?|Hin] & Hnodup & _);
        [set_solver|]. by exists l.
    + intros (l & Hl & Hin & Hnodup).
      assert (Some name' = Some name) as [= ->]; [|done].
      apply Hiff. exists l. split_and!; [done|by right|done|set_solver].
  - split.
    + destruct Hout as (? & ? & ? & _ & _ & _ & _
                        & [(? & -> & _)|(? & ? & _ & _ & _ & ->)]); simpl; done.
    + intros (l & Hl & Hin & Hnodup).
      assert (None = Some name) as [=].
      apply Hiff. exists l. split_and!; [done|by right|done|set_solver].
Qed.

(** *** The settings of a constructed configuration *)

Lemma throw_if_Normal condition e :
  throw_if condition e = Normal () → condition = false.
Proof. by destruct condition. Qed.

(** X10. A constructed configuration has the folder depths of the manifest,
    1 and 2 where the manifest gives none, and they are in order:
    [1 <= projectFolderMinDepth <= projectFolderMaxDepth]. *)
Theorem constructed_folder_depths (json : IRushConfigJson) (file : string)
    (config : RushConfig) :
  constructor json file = Normal config →
  _projectFolderMinDepth config = default 1%Z (projectFolderMinDepth json)
  ∧ _projectFolderMaxDepth config = default 2%Z (projectFolderMaxDepth json)
  ∧ (1 ≤ _projectFolderMinDepth config ≤ _projectFolderMaxDepth config)%Z.
Proof.
  rewrite constructor_unfold.
  destruct (constructor_fields json file) as [this| |] eqn:Hthis; simpl; [|done..].
  destruct (constructor_projects (projects json)) as [r| |]; simpl; [|done..].
  intros [= <-]. simpl.
  revert Hthis. unfold constructor_fields.
  repeat match goal with
         | |- context [throw_if ?c ?e] =>
             let Hc := fresh "Hc" in
             destruct c eqn:Hc; simpl; try done
         | |- context [match ?x with _ => _ end] => destruct x; simpl; try done
         end;
    intros [= <-]; simpl; lia.
Qed.

Lemma completion_bind_Normal {A B} (c : Completion A) (k : A → Completion B) b :
  c ≫= k = Normal b → ∃ a, c = Normal a ∧ k a = Normal b.
Proof. destruct c as [a| |]; simpl; [eauto|done..]. Qed.

(** What the checks of the settings have established when they return. *)
Lemma constructor_fields_Normal json file this :
  constructor_fields json file = Normal this →
  fs_existsSync (_commonFolder this) = true
  ∧ fs_existsSync (_homeFolder this) = true
  ∧ (∀ reviewFile, _packageReviewFile this = Some reviewFile →
       fs_existsSync reviewFile = true)
  ∧ (∀ range, nodeSupportedVersionRange json = Some range → range ≠ EmptyString →
       semver_validRange range = true
       ∧ semver_satisfies process_version range = true).
Proof.
  unfold constructor_fields. intros Hfields. cbv zeta in Hfields.
  apply completion_bind_Normal in Hfields as ([] & Hnode & Hfields).
  apply completion_bind_Normal in Hfields as ([] & Hcommon%throw_if_Normal & Hfields).
  apply completion_bind_Normal in Hfields as (home & Hhome & Hfields).
  apply completion_bind_Normal in Hfields as ([] & Hexists%throw_if_Normal & Hfields).
  apply completion_bind_Normal in Hfields as ([] & _ & Hfields).
  apply completion_bind_Normal in Hfields as ([] & _ & Hfields).
  apply completion_bind_Normal in Hfields as (review & Hreview & Hfields).
  injection Hfields as <-. simpl.
  apply negb_false_iff in Hcommon, Hexists.
  split_and!; [done..| |].
  - intros reviewFile ->.
    destruct (Js.if_truthy (packageReviewFile json)) as [given|]; [|done].
    apply completion_bind_Normal in Hreview as ([] & Hfile%throw_if_Normal & Hreview).
    injection Hreview as <-. by apply negb_false_iff in Hfile.
  - intros range Hrange Hnonempty. rewrite Hrange in Hnode.
    unfold Js.if_truthy, Js.truthy in Hnode.
    rewrite bool_decide_false in Hnode by done. simpl in Hnode.
    apply completion_bind_Normal in Hnode as ([] & Hvalid%throw_if_Normal & Hnode).
    apply throw_if_Normal in Hnode.
    by apply negb_false_iff in Hvalid, Hnode.
Qed.

(** X11. A configuration is constructed only in an environment that has
    been checked: the common folder and the home folder exist, the package
    review file exists when the manifest names one, and the version of
    Node.js satisfies the [nodeSupportedVersionRange] of the manifest when it
    gives one. *)
Theorem constructed_environment_checked (json : IRushConfigJson) (file : string)
    (config : RushConfig) :
  constructor json file = Normal config →
  fs_existsSync (_commonFolder config) = true
  ∧ fs_existsSync (_homeFolder config) = true
  ∧ (∀ reviewFile, _packageReviewFile config = Some reviewFile →
       fs_existsSync reviewFile = true)
  ∧ (∀ range, nodeSupportedVersionRange json = Some range → range ≠ EmptyString →
       semver_validRange range = true
       ∧ semver_satisfies process_version range = true).
Proof.
  rewrite constructor_unfold.
  destruct (constructor_fields json file) as [this| |] eqn:Hthis; simpl; [|done..].
  destruct (constructor_projects (projects json)) as [r| |]; simpl; [|done..].
  intros [= <-]. simpl. exact (constructor_fields_Normal json file this Hthis).
Qed.

(** X12. The check of the Node.js version comes first: when the manifest
    gives a [nodeSupportedVersionRange] that is not a valid range, or one
    that the version of Node.js does not satisfy, the constructor throws the
    error of that check, whatever else the manifest holds. *)
Theorem node_version_checked_first (json : IRushConfigJson) (file : string)
    (range : string) :
  nodeSupportedVersionRange json = Some range →
  range ≠ EmptyString →
  semver_validRange range && semver_satisfies process_version range = false →
  constructor json file
  = Throw (if semver_validRange range
           then NodeVersionUnsupported process_version range
           else NodeRangeMalformed range).
Proof.
  intros Hrange Hnonempty Hfails.
  rewrite constructor_unfold. unfold constructor_fields, Js.if_truthy, Js.truthy.
  rewrite Hrange. rewrite (bool_decide_false (range = EmptyString)) by done. simpl.
  destruct (semver_validRange range); simpl; [|done].
  simpl in Hfails. by rewrite Hfails.
Qed.

(** *** The loaders *)

(** The version check lets the manifest through. *)
Lemma version_check_passes (json : IRushConfigJson) :
  (∀ v, rushMinimumVersion json = Some v → v ≠ EmptyString →
        semver_valid v = true → semver_lt rushVersion v = false) →
  match Js.if_truthy (rushMinimumVersion json) with
  | Some minimumVersion =>
      if semver_valid minimumVersion
      then if semver_lt rushVersion minimumVersion
           then throw (RushVersionTooOld rushVersion minimumVersion)
           else mret ()
      else mret ()
  | None => mret ()
  end = (mret () : Traced ()).
Proof.
  intros Hok. unfold Js.if_truthy, Js.truthy.
  destruct (rushMinimumVersion json) as [v|]; [|done].
  case_bool_decide as Hv; simpl; [done|].
  destruct (semver_valid v) eqn:Hvalid; [|done].
  by rewrite (Hok v eq_refl Hv Hvalid).
Qed.

(** X13. When rush.json passes the version check and the validator rejects
    it, [loadFromConfigFile] prints the error and throws it: the message
    names the file, the section and the code of the first error detail; the
    validator was given the document without its [$schema] member; and no
    configuration is constructed. *)
Theorem schema_violation_reported (file : string) (json : IRushConfigJson)
    (rushSchema : Schema) (detail : ErrorDetail) :
  loadRushJson file = inr json →
  (∀ v, rushMinimumVersion json = Some v → v ≠ EmptyString →
        semver_valid v = true → semver_lt rushVersion v = false) →
  loadSchema schemaFile = inr rushSchema →
  validator_validate (delete_schema json) rushSchema = Some detail →
  let errorMessage :=
    "Error parsing file '" +:+ path_basename file +:+ "',section["
    +:+ detail_path detail +:+ "]:" +:+ os_EOL
    +:+ "(" +:+ detail_code detail +:+ ") " +:+ detail_message detail in
  outcome (loadFromConfigFile file) = Throw (SchemaViolation errorMessage)
  ∧ message (SchemaViolation errorMessage) = errorMessage
  ∧ trace (loadFromConfigFile file)
    = [EvLoadJsonFile file; EvNewValidator; EvLoadJsonFile schemaFile; EvValidate;
       EvConsoleLog (os_EOL +:+ "ERROR: " +:+ errorMessage +:+ os_EOL +:+ os_EOL)].
Proof.
  intros Hload Hversion Hschema Hdetail errorMessage.
  unfold loadFromConfigFile, JsonFile_loadJsonFile. rewrite Hload.
  cbn [mbind traced_bind perform outcome trace].
  rewrite (version_check_passes json Hversion). fold schemaFile.
  cbn [mret traced_ret mbind traced_bind perform outcome trace app].
  rewrite Hschema.
  cbn [mbind traced_bind perform outcome trace app]. rewrite Hdetail.
  cbn [mret traced_ret mbind traced_bind perform throw lift outcome trace app].
  assert ("Error parsing file '" +:+ path_basename file +:+ "',"
          +:+ "section[" +:+ detail_path detail +:+ "]:" +:+ os_EOL
          +:+ "(" +:+ detail_code detail +:+ ") " +:+ detail_message detail
          = errorMessage) as ->.
  { reflexivity. }
  done.
Qed.

(** When rush.json passes the version check and the validator accepts
    it, [loadFromConfigFile] ends as the constructor does on the document
    that was read; the [$schema] member has no influence on what is
    constructed; and nothing is printed. *)
Lemma valid_manifest_is_constructed (file : string) (json : IRushConfigJson)
    (rushSchema : Schema) :
  loadRushJson file = inr json →
  (∀ v, rushMinimumVersion json = Some v → v ≠ EmptyString →
        semver_valid v = true → semver_lt rushVersion v = false) →
  loadSchema schemaFile = inr rushSchema →
  validator_validate (delete_schema json) rushSchema = None →
  outcome (loadFromConfigFile file) = constructor json file
  ∧ trace (loadFromConfigFile file)
    = [EvLoadJsonFile file; EvNewValidator; EvLoadJsonFile schemaFile; EvValidate].
Proof.
  intros Hload Hversion Hschema Hvalid.
  unfold loadFromConfigFile, JsonFile_loadJsonFile. rewrite Hload.
  cbn [mbind traced_bind perform outcome trace].
  rewrite (version_check_passes json Hversion). fold schemaFile.
  cbn [mret traced_ret mbind traced_bind perform outcome trace app].
  rewrite Hschema.
  cbn [mbind traced_bind perform outcome trace app]. rewrite Hvalid.
  cbn [mret traced_ret mbind traced_bind perform throw lift outcome trace app].
  done.
Qed.

(** The loop from the folder [start], when the first rush.json is [k]
    folders up and the root is not reached before. *)
Lemma for_parentFolders_found remaining i start k :
  (k < remaining)%nat →
  (∀ j, (j < k)%nat →
        fs_existsSync (candidate start j) = false
        ∧ searchFolder start (S j) ≠ searchFolder start j) →
  fs_existsSync (candidate start k) = true →
  outcome (for_parentFolders remaining i start)
  = outcome (loadFromConfigFile (candidate start k))
  ∧ trace (for_parentFolders remaining i start)
    = (probes start (S k)
       ++ (if (0 <? i + k)%nat
           then [EvConsoleLog ("Found config in " +:+ candidate start k)]
           else [])
       ++ [EvConsoleLog EmptyString]
       ++ trace (loadFromConfigFile (candidate start k)))%list.
Proof.
  revert remaining i start.
  induction k as [|k IH]; intros [|remaining] i start Hk Hbefore Hfound; try lia;
    cbn [for_parentFolders mbind traced_bind perform outcome trace].
  - change (path_join [start; "rush.json"]) with (candidate start 0).
    rewrite Hfound, Nat.add_0_r.
    destruct (0 <? i)%nat;
      cbn [mret traced_ret mbind traced_bind perform outcome trace app];
      by destruct (outcome (loadFromConfigFile (candidate start 0))).
  - destruct (Hbefore 0 ltac:(lia)) as [Hhere Hroot].
    change (path_join [start; "rush.json"]) with (candidate start 0).
    rewrite Hhere. rewrite bool_decide_false by done.
    destruct (IH remaining (S i) (path_dirname start)) as [Houtcome Htrace].
    + lia.
    + intros j Hj. destruct (Hbefore (S j) ltac:(lia)) as [Hnone Hne].
      unfold candidate, searchFolder in *.
      by rewrite <-!Nat.iter_succ_r.
    + unfold candidate, searchFolder in *. by rewrite Nat.iter_succ_r in Hfound.
    + assert (candidate (path_dirname start) k = candidate start (S k)) as Hsame
        by (unfold candidate, searchFolder; by rewrite Nat.iter_succ_r).
      rewrite Houtcome, Htrace, Hsame. split; [done|].
      rewrite (probes_S start (S k)).
      replace (0 <? S i + k)%nat with (0 <? i + S k)%nat
        by (f_equal; lia).
      done.
Qed.

(** X14. [loadFromDefaultLocation] loads the nearest rush.json: when the
    first folder that holds one is [k] folders above the working directory,
    with [k < 10] and no root in between, it probes the [k + 1] folders up
    to that one, prints where it found the file unless that is the working
    directory itself, prints an empty line, and goes on as
    [loadFromConfigFile] does on that file. *)
Theorem nearest_rush_json_is_loaded (k : nat) :
  (k < 10)%nat →
  (∀ j, (j < k)%nat →
        fs_existsSync (candidate process_cwd j) = false
        ∧ searchFolder process_cwd (S j) ≠ searchFolder process_cwd j) →
  fs_existsSync (candidate process_cwd k) = true →
  outcome loadFromDefaultLocation
  = outcome (loadFromConfigFile (candidate process_cwd k))
  ∧ trace loadFromDefaultLocation
    = (probes process_cwd (S k)
       ++ (if (0 <? k)%nat
           then [EvConsoleLog ("Found config in " +:+ candidate process_cwd k)]
           else [])
       ++ [EvConsoleLog EmptyString]
       ++ trace (loadFromConfigFile (candidate process_cwd k)))%list.
Proof.
  intros Hk Hbefore Hfound.
  exact (for_parentFolders_found 10 0 process_cwd k Hk Hbefore Hfound).
Qed.

Lemma for_parentFolders_root remaining i start k :
  (k < remaining)%nat →
  (∀ j, (j ≤ k)%nat → fs_existsSync (candidate start j) = false) →
  (∀ j, (j < k)%nat → searchFolder start (S j) ≠ searchFolder start j) →
  path_dirname (searchFolder start k) = searchFolder start k →
  outcome (for_parentFolders remaining i start) = Throw RushJsonNotFound
  ∧ trace (for_parentFolders remaining i start) = probes start (S k).
Proof.
  revert remaining i start.
  induction k as [|k IH]; intros [|remaining] i start Hk Hnone Hbefore Hroot; try lia;
    cbn [for_parentFolders mbind traced_bind perform outcome trace];
    pose proof (Hnone 0 ltac:(lia)) as Hhere;
    change (path_join [start; "rush.json"]) with (candidate start 0);
    rewrite Hhere.
  - rewrite bool_decide_true by done. done.
  - rewrite bool_decide_false by exact (Hbefore 0 ltac:(lia)).
    destruct (IH remaining (S i) (path_dirname start)) as [Houtcome Htrace].
    + lia.
    + intros j Hj. specialize (Hnone (S j) ltac:(lia)).
      unfold candidate, searchFolder in *. by rewrite Nat.iter_succ_r in Hnone.
    + intros j Hj. specialize (Hbefore (S j) ltac:(lia)).
      unfold searchFolder in *. by rewrite <-!Nat.iter_succ_r.
    + unfold searchFolder in *. by rewrite <-!Nat.iter_succ_r.
    + rewrite Houtcome, Htrace. split; [done|]. by rewrite (probes_S start (S k)).
Qed.

(** X15. The search stops at the root of the file system: when the [k]-th
    folder above the working directory is its own parent, [k < 10], and no
    folder up to it holds a rush.json, [loadFromDefaultLocation] throws
    'Unable to find rush.json configuration file' after exactly [k + 1]
    probes. *)
Theorem search_stops_at_root (k : nat) :
  (k < 10)%nat →
  (∀ j, (j ≤ k)%nat → fs_existsSync (candidate process_cwd j) = false) →
  (∀ j, (j < k)%nat → searchFolder process_cwd (S j) ≠ searchFolder process_cwd j) →
  path_dirname (searchFolder process_cwd k) = searchFolder process_cwd k →
  outcome loadFromDefaultLocation = Throw RushJsonNotFound
  ∧ trace loadFromDefaultLocation = probes process_cwd (S k).
Proof.
  intros Hk Hnone Hbefore Hroot.
  exact (for_parentFolders_root 10 0 process_cwd k Hk Hnone Hbefore Hroot).
Qed.

(** *** Which whitelist entry the constructor reports *)

Lemma forEach_cyclicDependencyProject_find byName project names :
  forEach_cyclicDependencyProject byName project names
  = match list_find (λ c, byName !! c = None) names with
    | Some (_, c) => Throw (UnknownCyclicDependency c (rcp_packageName project))
    | None => Normal ()
    end.
Proof.
  induction names as [|c names IH]; [done|].
  cbn [forEach_cyclicDependencyProject list_find]. rewrite IH.
  destruct (byName !! c) as [i|] eqn:Hc.
  - rewrite decide_False by done.
    by destruct (list_find (λ c, byName !! c = None) names) as [[??]|].
  - by rewrite decide_True by done.
Qed.

Lemma for_projects_find indices byName ps0 ps :
  extends ps0 ps →
  (∀ i, i ∈ indices → (i < length ps0)%nat) →
  match list_find (λ x : string * string, byName !! x.1 = None)
          (indices ≫= (λ i, match ps0 !! i with
                            | Some p => (λ c, (c, rcp_packageName p))
                                          <$> rcp_cyclicDependencyProjects p
                            | None => []
                            end)) with
  | Some (_, (c, r)) =>
      for_projects indices byName ps = Throw (UnknownCyclicDependency c r)
  | None => ∃ ps', for_projects indices byName ps = Normal ps'
  end.
Proof.
  revert ps. induction indices as [|i indices IH]; intros ps Hext Hrange.
  { simpl. eauto. }
  destruct (lookup_lt_is_Some_2 ps0 i) as [p0 Hp0]; [apply Hrange; left|].
  destruct (Hext i) as [l Hl]. rewrite Hp0 in Hl. simpl in Hl.
  destruct (with_downstream_fields l p0) as (Hname & Hcyclic & _).
  rewrite bind_cons, Hp0. cbn [for_projects]. rewrite Hl, Hcyclic.
  rewrite forEach_cyclicDependencyProject_find, Hname.
  assert (list_find (λ x : string * string, byName !! x.1 = None)
            ((λ c, (c, rcp_packageName p0)) <$> rcp_cyclicDependencyProjects p0)
          = prod_map id (λ c, (c, rcp_packageName p0))
              <$> list_find (λ c, byName !! c = None) (rcp_cyclicDependencyProjects p0))
    as Hfmap
    by exact (list_find_fmap (λ c, (c, rcp_packageName p0))
                (λ x : string * string, byName !! x.1 = None)
                (rcp_cyclicDependencyProjects p0)).
  destruct (list_find (λ c, byName !! c = None) (rcp_cyclicDependencyProjects p0))
    as [[n c]|] eqn:Hfind.
  - by rewrite (list_find_app_l _ _ _ _ _ Hfmap).
  - rewrite (list_find_app_r _ _ _ Hfmap).
    simpl.
    specialize (IH (forEach_dependencyName byName (with_downstream l p0) ps)
                   (extends_forEach _ _ _ _ Hext)
                   (λ i' Hi', Hrange i' (list_elem_of_further _ _ _ Hi'))).
    by destruct (list_find _ (indices ≫= _)) as [[? [??]]|].
Qed.

Lemma whitelistEntries_of_projects tempNames (projectJsons : list IRushConfigProjectJson) :
  (project_of tempNames <$> imap pair projectJsons)
    ≫= (λ p, (λ c, (c, rcp_packageName p)) <$> rcp_cyclicDependencyProjects p)
  = whitelistEntries projectJsons.
Proof.
  unfold whitelistEntries.
  apply (bind_Forall2 (λ p entry, ∃ t, p = new_RushConfigProject entry t)).
  - apply Forall2_lookup. intros i. rewrite project_of_lookup.
    destruct (projectJsons !! i); constructor. by eexists.
  - by intros p entry [t ->].
Qed.

(** What [constructor_projects] does once the package names are known to be
    distinct: it reports the first whitelist entry that names no project, if
    there is one. *)
Lemma constructor_projects_find (projectJsons : list IRushConfigProjectJson) :
  NoDup (packageName <$> projectJsons) →
  match list_find (λ x : string * string, x.1 ∉ packageName <$> projectJsons)
          (whitelistEntries projectJsons) with
  | Some (_, (c, r)) =>
      constructor_projects projectJsons = Throw (UnknownCyclicDependency c r)
  | None => ∃ built, constructor_projects projectJsons = Normal built
  end.
Proof.
  intros Hnodup. unfold constructor_projects.
  destruct (generateTempNames_returns (imap pair projectJsons))
    as (tempNames & -> & _).
  pose proof (for_projectJsons_spec (imap pair projectJsons) tempNames [] ∅
                indexed_empty) as Hfirst.
  rewrite dom_empty_L, names_of_refs in Hfirst.
  rewrite (proj2 (firstDuplicate_None ∅ (packageName <$> projectJsons))) in Hfirst
    by set_solver.
  destruct Hfirst as (byName & -> & Hidx). simpl in Hidx. simpl.
  set (ps := project_of tempNames <$> imap pair projectJsons) in *.
  pose proof (for_projects_find (seq 0 (length ps)) byName ps ps (extends_refl ps))
    as Hfind.
  rewrite bind_seq_lookup in Hfind.
  pose proof (whitelistEntries_of_projects tempNames projectJsons) as Hentries.
  fold ps in Hentries. rewrite Hentries in Hfind.
  rewrite (list_find_ext _ (λ x : string * string, x.1 ∉ packageName <$> projectJsons))
    in Hfind.
  2: { intros [c r]. simpl.
       rewrite <-(project_of_names tempNames). fold ps.
       rewrite <-(indexed_is_Some ps byName c Hidx).
       rewrite eq_None_not_Some. done. }
  destruct (list_find _ (whitelistEntries projectJsons)) as [[? [c r]]|].
  - rewrite Hfind by (intros i Hi%elem_of_seq; lia). done.
  - destruct Hfind as [ps' ->]; [intros i Hi%elem_of_seq; lia|]. simpl. eauto.
Qed.

(** X16. Construction succeeds exactly when the checks of the settings
    pass, the package names of the manifest are pairwise distinct, and every
    [cyclicDependencyProjects] entry is the package name of a project of the
    manifest.  Nothing else about the projects can make it fail, and it
    always ends: it returns or it throws. *)
Theorem construction_succeeds_iff (json : IRushConfigJson) (file : string) :
  ((∃ config, constructor json file = Normal config) ↔
   (∃ this, constructor_fields json file = Normal this)
   ∧ NoDup (packageName <$> projects json)
   ∧ ∀ entry c, entry ∈ projects json →
                c ∈ default [] (cyclicDependencyProjects entry) →
                c ∈ packageName <$> projects json)
  ∧ ((∃ config, constructor json file = Normal config)
     ∨ (∃ e, constructor json file = Throw e)).
Proof.
  split; [split|].
  - intros [config Hconfig]. split_and!.
    + rewrite constructor_unfold in Hconfig.
      destruct (constructor_fields json file); [eauto|done..].
    + rewrite <-(projects_names_of _ _ _ Hconfig).
      destruct (constructor_projects_Normal _ _ _ (constructor_Normal _ _ _ Hconfig))
        as (tempNames & ps & _ & Hps & Hidx & _).
      rewrite (projects_names_of _ _ _ Hconfig).
      rewrite <-(project_of_names tempNames), <-Hps.
      by eapply indexed_names_NoDup.
    + intros entry c [i Hentry]%list_elem_of_lookup Hc.
      destruct (constructed_project _ _ _ Hconfig) as (tempNames & _ & Hlength & Hview).
      destruct (lookup_lt_is_Some_2 (_projects config) i) as [p Hp].
      { rewrite Hlength. by eapply lookup_lt_Some. }
      destruct (Hview i p Hp) as (entry' & Hentry' & _ & _ & _ & _ & _ & Hall).
      assert (entry' = entry) as -> by congruence.
      destruct (Hall c Hc) as [j Hj].
      destruct (projectsByName_refers _ _ _ _ _ Hconfig Hj) as (q & Hq & <-).
      rewrite <-(projects_names_of _ _ _ Hconfig).
      apply list_elem_of_fmap. exists q. split; [done|].
      apply list_elem_of_lookup; eauto.
  - intros ([this Hthis] & Hnodup & Hresolved).
    pose proof (constructor_projects_find (projects json) Hnodup) as Hfind.
    destruct (list_find _ (whitelistEntries (projects json))) as [[n [c r]]|] eqn:Hfound.
    + exfalso. apply list_find_Some in Hfound as (Hn%list_elem_of_lookup_2 & Hunknown & _).
      apply Hunknown. unfold whitelistEntries in Hn.
      apply list_elem_of_bind in Hn as (entry & Hc & Hentry).
      apply list_elem_of_fmap in Hc as (c' & [= -> ->] & Hc').
      by apply (Hresolved entry).
    + destruct Hfind as [built Hbuilt].
      rewrite constructor_unfold, Hthis, Hbuilt. simpl. eauto.
  - rewrite constructor_unfold.
    destruct (constructor_fields_outcome json file) as [[this ->]|[e ->]]; simpl;
      [|by eauto].
    pose proof (constructor_projects_outcome (projects json)) as Hout.
    destruct (firstDuplicate _ _); [rewrite Hout; simpl; by eauto|].
    destruct Hout as (? & ? & ? & _ & _ & _ & _
                      & [(? & -> & _)|(? & ? & _ & _ & _ & ->)]); simpl; eauto.
Qed.

(** X17. When the checks of the settings pass and the package names are
    pairwise distinct, the constructor throws the unknown-project error for
    the entry [c] of the project [r] exactly when that is the first
    whitelist entry, in the order of the manifest, that names no project of
    the manifest. *)
Theorem unknown_error_names_first_unresolved (json : IRushConfigJson) (file : string)
    (this : RushConfig) (c r : string) :
  constructor_fields json file = Normal this →
  NoDup (packageName <$> projects json) →
  constructor json file = Throw (UnknownCyclicDependency c r) ↔
  ∃ n, whitelistEntries (projects json) !! n = Some (c, r)
       ∧ c ∉ packageName <$> projects json
       ∧ ∀ j c' r', whitelistEntries (projects json) !! j = Some (c', r') →
                    (j < n)%nat → c' ∈ packageName <$> projects json.
Proof.
  intros Hthis Hnodup.
  pose proof (constructor_projects_find (projects json) Hnodup) as Hfind.
  rewrite constructor_unfold, Hthis. simpl.
  destruct (list_find _ (whitelistEntries (projects json))) as [[n [c0 r0]]|] eqn:Hfound.
  - rewrite Hfind. simpl.
    apply list_find_Some in Hfound as (Hn & Hunknown & Hbefore). simpl in Hunknown.
    split.
    + intros [= -> ->]. exists n. split_and!; [done..|].
      intros j c' r' Hj Hlt.
      destruct (decide (c' ∈ packageName <$> projects json)) as [|Hnot]; [done|].
      by destruct (Hbefore j (c', r') Hj Hlt).
    + intros (m & Hm & Hc & Hfirst).
      destruct (Nat.lt_trichotomy m n) as [Hlt|[->|Hlt]].
      * by destruct (Hbefore m (c, r) Hm Hlt).
      * by assert ((c0, r0) = (c, r)) as [= -> ->] by congruence.
      * by destruct Hunknown; apply (Hfirst n c0 r0).
  - destruct Hfind as [built ->]. simpl. split; [done|].
    intros (m & Hm%list_elem_of_lookup_2 & Hc & _).
    apply list_find_None in Hfound.
    by apply (proj1 (Forall_forall _ _) Hfound (c, r)) in Hm.
Qed.

End Further.

(** ** The claims on concrete manifests *)

Import Scenario.

(** Membership in a list that is written out. *)
Ltac list_cases Hin :=
  repeat (apply elem_of_cons in Hin as [->|Hin]); [..|by apply elem_of_nil in Hin].

(** C1. The sort compares every name with itself, so the projects are
    named in the order of the manifest: the two orders of the same two
    entries give each of them a different name. *)
Theorem tempNames_depend_on_manifest_order :
  _generateTempNamesForProjects (H := sameUnscopedNameRepo) [(0, plain); (1, scoped)]
  = Some ([(0, plain); (1, scoped)], {[0 := "rush-a"; 1 := "rush-a-1"]})
  ∧ _generateTempNamesForProjects (H := sameUnscopedNameRepo) [(1, scoped); (0, plain)]
    = Some ([(1, scoped); (0, plain)], {[1 := "rush-a"; 0 := "rush-a-1"]}).
Proof. split; vm_compute; reflexivity. Qed.

(** C2. The project that collides first gets the suffix [-1], not [-2]. *)
Theorem first_collision_gets_suffix_1 :
  ∃ config,
    constructor (H := sameUnscopedNameRepo) sameUnscopedName rushJson = Normal config
    ∧ rcp_tempProjectName <$> _projects config = [Some "rush-a"; Some "rush-a-1"].
Proof. eexists. split; vm_compute; reflexivity. Qed.

(** C3, the claim as stated fails: the declared dependencies of [cyclic]
    contain a cycle that no whitelist covers, and construction succeeds. *)
Lemma unlisted_cycle_is_accepted :
  has_unlisted_cycle (H := cyclicRepo) (projects cyclic)
  ∧ (∃ config, constructor (H := cyclicRepo) cyclic rushJson = Normal config)
  ∧ ¬ ∃ e, constructor (H := cyclicRepo) cyclic rushJson = Throw e.
Proof.
  split_and!.
  - assert (unlisted_dependency (H := cyclicRepo) (projects cyclic) ping pong) as Hping.
    { split_and!; [vm_compute; set_solver..|]. by intros ?%elem_of_nil. }
    assert (unlisted_dependency (H := cyclicRepo) (projects cyclic) pong ping) as Hpong.
    { split_and!; [vm_compute; set_solver..|]. by intros ?%elem_of_nil. }
    exists ping. exact (tc_l _ _ _ _ Hping (tc_once _ _ _ Hpong)).
  - eexists. vm_compute. reflexivity.
  - intros [e He]. vm_compute in He. discriminate He.
Qed.

(** C3, as amended, on the whitelisted cycle. *)
Lemma construction_succeeds_without_cycle_check_witness :
  ∃ this,
    constructor_fields (H := cyclicListedRepo) cyclicListed rushJson = Normal this
    ∧ NoDup (packageName <$> projects cyclicListed)
    ∧ (∀ p c, p ∈ projects cyclicListed →
              c ∈ default [] (cyclicDependencyProjects p) →
              c ∈ packageName <$> projects cyclicListed)
    ∧ ∃ config, constructor (H := cyclicListedRepo) cyclicListed rushJson = Normal config.
Proof.
  assert (NoDup (packageName <$> projects cyclicListed)) as Hnodup by compute_done.
  assert (∀ p c, p ∈ projects cyclicListed →
                 c ∈ default [] (cyclicDependencyProjects p) →
                 c ∈ packageName <$> projects cyclicListed) as Hresolved.
  { intros p c Hp Hc. list_cases Hp; list_cases Hc; compute_done. }
  eexists. split; [vm_compute; reflexivity|]. split_and!; [done..|].
  eapply (construction_succeeds_without_cycle_check (H := cyclicListedRepo));
    [vm_compute; reflexivity|done..].
Defined.


(** The downstream lists of the scenario, in the order of discovery. *)
Example downstream_of_threeProjects :
  ∃ config,
    constructor (H := threeProjectsRepo) threeProjects rushJson = Normal config
    ∧ (λ p, (rcp_packageName p, rcp_downstreamDependencyProjects p)) <$> _projects config
      = [("core", ["utils"; "app"]); ("utils", ["app"]); ("app", [])].
Proof. eexists. split; vm_compute; reflexivity. Qed.

(** C5, on two packages with the same unscoped name. *)
Lemma tempProjectNames_distinct_witness :
  ∃ config p q,
    constructor (H := sameUnscopedNameRepo) sameUnscopedName rushJson = Normal config
    ∧ _projects config !! 0 = Some p
    ∧ _projects config !! 1 = Some q
    ∧ 0 ≠ 1
    ∧ ∃ name1 name2,
        rcp_tempProjectName p = Some name1
        ∧ rcp_tempProjectName q = Some name2
        ∧ name1 ≠ name2.
Proof.
  eexists _, _, _.
  split; [vm_compute; reflexivity|].
  split; [vm_compute; reflexivity|].
  split; [vm_compute; reflexivity|].
  split; [lia|].
  eapply (tempProjectNames_distinct (H := sameUnscopedNameRepo)
            sameUnscopedName rushJson _ 0 1);
    [vm_compute; reflexivity..|lia].
Defined.



(** C8, on a manifest that asks for a newer release of the tool. *)
Lemma version_check_before_schema_validation_witness :
  (loadRushJson (Host := tooNewRepo) rushJson = inr tooNew
   ∧ rushMinimumVersion tooNew = Some "2.0.0"
   ∧ "2.0.0" ≠ EmptyString
   ∧ semver_valid (Host := tooNewRepo) "2.0.0" = true
   ∧ semver_lt (Host := tooNewRepo) (rushVersion (Host := tooNewRepo)) "2.0.0" = true)
  ∧ outcome (loadFromConfigFile (H := tooNewRepo) rushJson)
    = Throw (RushVersionTooOld "1.1.0" "2.0.0")
  ∧ trace (loadFromConfigFile (H := tooNewRepo) rushJson) = [EvLoadJsonFile rushJson]
  ∧ (EvValidate ∉ trace (loadFromConfigFile (H := tooNewRepo) rushJson))
  ∧ EvNewValidator ∉ trace (loadFromConfigFile (H := tooNewRepo) rushJson).
Proof.
  assert ("2.0.0" ≠ EmptyString) as Hnonempty by discriminate.
  split; [split_and!; [reflexivity..|done|reflexivity|reflexivity]|].
  exact (version_check_before_schema_validation (H := tooNewRepo) rushJson tooNew
           "2.0.0" eq_refl eq_refl Hnonempty eq_refl eq_refl).
Defined.

(** C10, on a manifest whose minimum version is not a version. *)
Lemma malformed_minimum_version_skips_version_check_witness :
  (loadRushJson (Host := malformedRepo) rushJson = inr malformed
   ∧ rushMinimumVersion malformed = Some "latest"
   ∧ semver_valid (Host := malformedRepo) "latest" = false)
  ∧ (∀ v m, outcome (loadFromConfigFile (H := malformedRepo) rushJson)
            ≠ Throw (RushVersionTooOld v m))
  ∧ ∃ rest, trace (loadFromConfigFile (H := malformedRepo) rushJson)
            = EvLoadJsonFile rushJson :: EvNewValidator
              :: EvLoadJsonFile (schemaFile (H := malformedRepo)) :: EvValidate :: rest.
Proof.
  split; [split_and!; reflexivity|].
  destruct (malformed_minimum_version_skips_version_check (H := malformedRepo)
              rushJson malformed eq_refl
              (or_intror (ex_intro _ "latest" (conj eq_refl eq_refl))))
    as (Hnone & _ & Hvalidate).
  split; [done|]. by apply (Hvalidate ()).
Defined.

(** C9, in a repository without rush.json: the search stops at the root
    after four probes. *)
Lemma default_location_search_bounded_witness :
  (∀ k, (k < 10)%nat →
        fs_existsSync (Host := noRushJson) (candidate (H := noRushJson) "/repo/apps/app" k)
        = false)
  ∧ outcome (loadFromDefaultLocation (H := noRushJson)) = Throw RushJsonNotFound
  ∧ trace (loadFromDefaultLocation (H := noRushJson))
    = [EvExistsSync "/repo/apps/app/rush.json"; EvExistsSync "/repo/apps/rush.json";
       EvExistsSync "/repo/rush.json"; EvExistsSync "/rush.json"].
Proof.
  assert (∀ k, (k < 10)%nat →
               fs_existsSync (Host := noRushJson)
                 (candidate (H := noRushJson) "/repo/apps/app" k) = false) as Hnone.
  { intros k Hk. do 10 (destruct k as [|k]; [reflexivity|]). lia. }
  destruct (proj2 (default_location_search_bounded (H := noRushJson)) Hnone)
    as (Hthrow & _ & _).
  split_and!; [done..|]. vm_compute. reflexivity.
Defined.

(** The bound matters: the loop probes the working directory and nine
    folders above it, so a rush.json in the tenth folder above is not found. *)
Example rush_json_too_far_up :
  fs_existsSync (Host := deep) "/1/rush.json" = true
  ∧ outcome (loadFromDefaultLocation (H := deep)) = Throw RushJsonNotFound
  ∧ length (trace (loadFromDefaultLocation (H := deep))) = 10.
Proof. split_and!; vm_compute; reflexivity. Qed.

(** ** The further properties on concrete manifests *)

(** X3, on the three projects. *)
Lemma projects_follow_manifest_witness :
  ∃ config,
    constructor (H := threeProjectsRepo) threeProjects rushJson = Normal config
    ∧ rcp_packageName <$> _projects config = ["core"; "utils"; "app"]
    ∧ length (_projects config) = 3.
Proof.
  eexists. split; [vm_compute; reflexivity|].
  apply (projects_follow_manifest (H := threeProjectsRepo) threeProjects rushJson).
  vm_compute. reflexivity.
Defined.

(** X4, on the three projects. *)
Lemma getProjectByName_finds_projects_witness :
  ∃ config,
    constructor (H := threeProjectsRepo) threeProjects rushJson = Normal config
    ∧ (∀ p, p ∈ _projects config → getProjectByName config (rcp_packageName p) = Some p)
    ∧ (∀ name, name ∉ packageName <$> projects threeProjects →
               getProjectByName config name = None)
    ∧ (∀ name p, getProjectByName config name = Some p →
                 p ∈ _projects config ∧ rcp_packageName p = name).
Proof.
  eexists. split; [vm_compute; reflexivity|].
  apply (getProjectByName_finds_projects (H := threeProjectsRepo) threeProjects rushJson).
  vm_compute. reflexivity.
Defined.

(** X5, on the second of two packages with the same unscoped name. *)
Lemma tempProjectName_shape_witness :
  ∃ config p,
    constructor (H := sameUnscopedNameRepo) sameUnscopedName rushJson = Normal config
    ∧ _projects config !! 1 = Some p
    ∧ (rcp_tempProjectName p
         = Some ("rush-" +:+ Example.unscopedName (rcp_packageName p))
       ∨ ∃ k, (1 ≤ k ≤ 1)%nat
              ∧ rcp_tempProjectName p
                = Some ("rush-" +:+ Example.unscopedName (rcp_packageName p)
                        +:+ "-" +:+ pretty k)).
Proof.
  eexists _, _. split; [vm_compute; reflexivity|]. split; [vm_compute; reflexivity|].
  eapply (tempProjectName_shape (H := sameUnscopedNameRepo) sameUnscopedName rushJson
            _ 1 _); vm_compute; reflexivity.
Defined.

(** X6, on the three projects, whose unscoped names differ. *)
Lemma distinct_unscoped_names_need_no_suffix_witness :
  ∃ config p,
    constructor (H := threeProjectsRepo) threeProjects rushJson = Normal config
    ∧ NoDup ((λ entry, Example.unscopedName (packageName entry))
               <$> projects threeProjects)
    ∧ _projects config !! 2 = Some p
    ∧ rcp_tempProjectName p = Some "rush-app".
Proof.
  assert (NoDup ((λ entry, Example.unscopedName (packageName entry))
                   <$> projects threeProjects)) as Hnodup by compute_done.
  eexists _, _. split; [vm_compute; reflexivity|]. split; [done|].
  split; [vm_compute; reflexivity|].
  match goal with
  | |- rcp_tempProjectName ?P = _ =>
      change (rcp_tempProjectName P
              = Some ("rush-" +:+ parseScopedPackgeName_name (Host := threeProjectsRepo)
                                    (rcp_packageName P)))
  end.
  eapply (distinct_unscoped_names_need_no_suffix (H := threeProjectsRepo)
            threeProjects rushJson); [vm_compute; reflexivity|exact Hnodup|].
  apply list_elem_of_lookup. by exists 2.
Defined.

(** X7, on the whitelisted cycle. *)
Lemma constructed_graph_invariants_witness :
  ∃ config,
    constructor (H := cyclicListedRepo) cyclicListed rushJson = Normal config
    ∧ NoDup (rcp_packageName <$> _projects config)
    ∧ ∀ p c, p ∈ _projects config → c ∈ rcp_cyclicDependencyProjects p →
        ∃ q, getProjectByName config c = Some q ∧ rcp_packageName q = c.
Proof.
  eexists. split; [vm_compute; reflexivity|].
  apply (constructed_graph_invariants (H := cyclicListedRepo) cyclicListed rushJson).
  vm_compute. reflexivity.
Defined.

(** X8, on the downstream projects of [core]. *)
Lemma downstreamDependencyProjects_exact_witness :
  ∃ config B,
    constructor (H := threeProjectsRepo) threeProjects rushJson = Normal config
    ∧ (∀ A, A ∈ _projects config → NoDup (dependencyNames (rcp_packageJson A)))
    ∧ _projects config !! 0 = Some B
    ∧ rcp_downstreamDependencyProjects B
      = rcp_packageName
          <$> filter (λ A, rcp_packageName B ∈ dependencyNames (rcp_packageJson A))
                     (_projects config).
Proof.
  eexists _, _. split; [vm_compute; reflexivity|].
  match goal with
  | |- (?Hyp ∧ _) => assert Hyp as Hkeys
  end.
  { intros A HA. list_cases HA; compute_done. }
  split; [done|]. split; [vm_compute; reflexivity|].
  apply (downstreamDependencyProjects_exact (H := threeProjectsRepo)
           threeProjects rushJson _ _ eq_refl Hkeys).
  apply list_elem_of_lookup. by exists 0.
Defined.

(** X9, on a manifest that declares [core] twice. *)
Lemma duplicate_error_names_first_repeat_witness :
  ∃ this,
    constructor_fields (H := duplicatedRepo) duplicated rushJson = Normal this
    ∧ (constructor (H := duplicatedRepo) duplicated rushJson
         = Throw (DuplicateProjectName "core") ↔
       ∃ l, (packageName <$> projects duplicated) !! l = Some "core"
            ∧ "core" ∈ take l (packageName <$> projects duplicated)
            ∧ NoDup (take l (packageName <$> projects duplicated))).
Proof.
  eexists. split; [vm_compute; reflexivity|].
  eapply (duplicate_error_names_first_repeat (H := duplicatedRepo) duplicated rushJson).
  vm_compute. reflexivity.
Defined.

(** X10, on the three projects: the manifest gives no depth. *)
Lemma constructed_folder_depths_witness :
  ∃ config,
    constructor (H := threeProjectsRepo) threeProjects rushJson = Normal config
    ∧ _projectFolderMinDepth config = 1%Z
    ∧ _projectFolderMaxDepth config = 2%Z
    ∧ (1 ≤ _projectFolderMinDepth config ≤ _projectFolderMaxDepth config)%Z.
Proof.
  eexists. split; [vm_compute; reflexivity|].
  apply (constructed_folder_depths (H := threeProjectsRepo) threeProjects rushJson).
  vm_compute. reflexivity.
Defined.

(** X11, on the three projects. *)
Lemma constructed_environment_checked_witness :
  ∃ config,
    constructor (H := threeProjectsRepo) threeProjects rushJson = Normal config
    ∧ fs_existsSync (Host := threeProjectsRepo) (_commonFolder config) = true
    ∧ fs_existsSync (Host := threeProjectsRepo) (_homeFolder config) = true.
Proof.
  eexists. split; [vm_compute; reflexivity|].
  destruct (constructed_environment_checked (H := threeProjectsRepo)
              threeProjects rushJson _ eq_refl) as (Hcommon & Hhome & _).
  done.
Defined.

(** X12, on a manifest that asks for another Node.js and holds a depth of 0
    and a duplicated package name as well. *)
Lemma node_version_checked_first_witness :
  (nodeSupportedVersionRange nodeGated = Some "2.0.0"
   ∧ "2.0.0" ≠ EmptyString
   ∧ semver_validRange (Host := nodeGatedRepo) "2.0.0"
     && semver_satisfies (Host := nodeGatedRepo) "4.5.0" "2.0.0" = false)
  ∧ constructor (H := nodeGatedRepo) nodeGated rushJson
    = Throw (NodeVersionUnsupported "4.5.0" "2.0.0").
Proof.
  assert ("2.0.0" ≠ EmptyString) as Hnonempty by discriminate.
  split; [split_and!; [reflexivity|done|reflexivity]|].
  exact (node_version_checked_first (H := nodeGatedRepo) nodeGated rushJson "2.0.0"
           eq_refl Hnonempty eq_refl).
Defined.

(** A check that [version_check_passes] asks for, on a host of the
    examples: the tool is release 1.1.0 and the manifest asks for 1.0.0. *)
Lemma tool_is_recent_enough (h : Host) :
  rushVersion (Host := h) = "1.1.0" →
  semver_lt (Host := h) "1.1.0" "1.0.0" = false →
  ∀ v, rushMinimumVersion threeProjects = Some v → v ≠ EmptyString →
       semver_valid (Host := h) v = true → semver_lt (Host := h) rushVersion v = false.
Proof. intros -> Hlt v [= <-] _ _. exact Hlt. Defined.

(** X13, on a host whose validator rejects the manifest. *)
Lemma schema_violation_reported_witness :
  (loadRushJson (Host := rejectingRepo) rushJson = inr threeProjects
   ∧ loadSchema (Host := rejectingRepo) (schemaFile (H := rejectingRepo)) = inr ()
   ∧ validator_validate (Host := rejectingRepo) (delete_schema threeProjects) ()
     = Some typeError)
  ∧ ∃ errorMessage,
      outcome (loadFromConfigFile (H := rejectingRepo) rushJson)
      = Throw (SchemaViolation errorMessage)
      ∧ message (SchemaViolation errorMessage) = errorMessage.
Proof.
  split; [split_and!; reflexivity|].
  destruct (schema_violation_reported (H := rejectingRepo) rushJson threeProjects ()
              typeError eq_refl (tool_is_recent_enough rejectingRepo eq_refl eq_refl)
              eq_refl eq_refl) as (Houtcome & Hmessage & _).
  eexists. split; [exact Houtcome|exact Hmessage].
Defined.

(** The path of a valid manifest, on the three projects. *)
Lemma valid_manifest_is_constructed_witness :
  (loadRushJson (Host := threeProjectsRepo) rushJson = inr threeProjects
   ∧ loadSchema (Host := threeProjectsRepo) (schemaFile (H := threeProjectsRepo)) = inr ()
   ∧ validator_validate (Host := threeProjectsRepo) (delete_schema threeProjects) ()
     = None)
  ∧ outcome (loadFromConfigFile (H := threeProjectsRepo) rushJson)
    = constructor (H := threeProjectsRepo) threeProjects rushJson
  ∧ trace (loadFromConfigFile (H := threeProjectsRepo) rushJson)
    = [EvLoadJsonFile rushJson; EvNewValidator;
       EvLoadJsonFile (schemaFile (H := threeProjectsRepo)); EvValidate].
Proof.
  split; [split_and!; reflexivity|].
  exact (valid_manifest_is_constructed (H := threeProjectsRepo) rushJson threeProjects ()
           eq_refl (tool_is_recent_enough threeProjectsRepo eq_refl eq_refl)
           eq_refl eq_refl).
Defined.

(** X14, from [/repo/apps/app]: rush.json is two folders up. *)
Lemma nearest_rush_json_is_loaded_witness :
  fs_existsSync (Host := threeProjectsRepo) (candidate (H := threeProjectsRepo) "/repo/apps/app" 2)
  = true
  ∧ outcome (loadFromDefaultLocation (H := threeProjectsRepo))
    = outcome (loadFromConfigFile (H := threeProjectsRepo) rushJson)
  ∧ take 5 (trace (loadFromDefaultLocation (H := threeProjectsRepo)))
    = [EvExistsSync "/repo/apps/app/rush.json"; EvExistsSync "/repo/apps/rush.json";
       EvExistsSync "/repo/rush.json"; EvConsoleLog "Found config in /repo/rush.json";
       EvConsoleLog EmptyString].
Proof.
  assert (2 < 10)%nat as Hk by lia.
  assert (∀ j, (j < 2)%nat →
            fs_existsSync (Host := threeProjectsRepo)
              (candidate (H := threeProjectsRepo) "/repo/apps/app" j) = false
            ∧ searchFolder (H := threeProjectsRepo) "/repo/apps/app" (S j)
              ≠ searchFolder (H := threeProjectsRepo) "/repo/apps/app" j) as Hbefore.
  { intros j Hj. do 2 (destruct j as [|j]; [split; [reflexivity|discriminate]|]). lia. }
  destruct (nearest_rush_json_is_loaded (H := threeProjectsRepo) 2 Hk Hbefore eq_refl)
    as [Houtcome Htrace].
  split_and!; [reflexivity|exact Houtcome|].
  rewrite Htrace. reflexivity.
Defined.

(** X15, in a repository without rush.json: the root is three folders up. *)
Lemma search_stops_at_root_witness :
  path_dirname (Host := noRushJson) (searchFolder (H := noRushJson) "/repo/apps/app" 3)
  = searchFolder (H := noRushJson) "/repo/apps/app" 3
  ∧ outcome (loadFromDefaultLocation (H := noRushJson)) = Throw RushJsonNotFound
  ∧ length (trace (loadFromDefaultLocation (H := noRushJson))) = 4.
Proof.
  assert (3 < 10)%nat as Hk by lia.
  assert (∀ j, (j ≤ 3)%nat →
            fs_existsSync (Host := noRushJson)
              (candidate (H := noRushJson) "/repo/apps/app" j) = false) as Hnone.
  { intros j Hj. do 4 (destruct j as [|j]; [reflexivity|]). lia. }
  assert (∀ j, (j < 3)%nat →
            searchFolder (H := noRushJson) "/repo/apps/app" (S j)
            ≠ searchFolder (H := noRushJson) "/repo/apps/app" j) as Hbefore.
  { intros j Hj. do 3 (destruct j as [|j]; [discriminate|]). lia. }
  destruct (search_stops_at_root (H := noRushJson) 3 Hk Hnone Hbefore eq_refl)
    as [Houtcome Htrace].
  split_and!; [reflexivity|exact Houtcome|].
  rewrite Htrace. reflexivity.
Defined.

(** X17, on a whitelist whose second entry names the unknown [ghost]. *)
Lemma unknown_error_names_first_unresolved_witness :
  ∃ this,
    constructor_fields (H := unknownListedRepo) unknownListed rushJson = Normal this
    ∧ NoDup (packageName <$> projects unknownListed)
    ∧ (constructor (H := unknownListedRepo) unknownListed rushJson
         = Throw (UnknownCyclicDependency "ghost" "app") ↔
       ∃ n, whitelistEntries (projects unknownListed) !! n = Some ("ghost", "app")
            ∧ "ghost" ∉ packageName <$> projects unknownListed
            ∧ ∀ j c' r', whitelistEntries (projects unknownListed) !! j = Some (c', r') →
                         (j < n)%nat → c' ∈ packageName <$> projects unknownListed).
Proof.
  assert (NoDup (packageName <$> projects unknownListed)) as Hnodup by compute_done.
  eexists. split; [vm_compute; reflexivity|]. split; [done|].
  eapply (unknown_error_names_first_unresolved (H := unknownListedRepo)
            unknownListed rushJson); [vm_compute; reflexivity|done].
Defined.
